(** * Three-state cellular automata: a shallow embedding of
      [3_state_cellular_automata.py] and the properties of its rule decoder
      and evolution engine.

    Python integers are [Z]; a [str] is a [string] and a one-character [str]
    (what indexing or iterating a [str] yields) is an [ascii]; the lookup
    table [dict] is a [gmap (Z * Z)]; list objects live in a store and are
    referred to by location, so that two names for one list are one location.
    Exceptions are the [Raised] outcomes of [result]. *)

From Stdlib Require Import Ascii String.
From stdpp Require Import gmap strings list fin_maps pretty.
From Equations Require Import Equations.

Local Open Scope Z_scope.

(** ** Python values, exceptions and outcomes *)

(** The exceptions this program can meet. [ValueError] carries the message
    the program gives it; the [ValueError] the builtin [int] raises is kept
    apart as [IntValueError], its message is not modelled. *)
Inductive exn : Type :=
  | ValueError (msg : string)
  | IntValueError
  | TypeError
  | IndexError
  | KeyError.

Inductive result (A : Type) : Type :=
  | Returned (a : A)
  | Raised (e : exn).
Arguments Returned {A} a.
Arguments Raised {A} e.

#[global] Instance result_ret : MRet result := λ A a, Returned a.
#[global] Instance result_bind : MBind result := λ A B f m,
  match m with
  | Returned a => f a
  | Raised e => Raised e
  end.

(** What [except ValueError] catches. *)
Definition is_ValueError (e : exn) : bool :=
  match e with
  | ValueError _ | IntValueError => true
  | _ => false
  end.

(** The values a caller may pass for [time_steps]. Floats are left out. *)
Inductive pyval : Type :=
  | PyInt (z : Z)
  | PyBool (b : bool)
  | PyStr (s : string)
  | PyNone.

(** [v < k] for an integer [k]: numbers compare, [bool] being a subclass of
    [int]; a [str] or [None] against an [int] raises [TypeError]. *)
Definition py_lt (v : pyval) (k : Z) : result bool :=
  match v with
  | PyInt z => Returned (bool_decide (z < k))
  | PyBool b => Returned (bool_decide (Z.b2z b < k))
  | PyStr _ => Raised TypeError
  | PyNone => Raised TypeError
  end.

(** [int(c)] for a one-character [str]: the ten decimal digits convert, every
    other character raises [ValueError]. *)
Definition int_of_char (c : ascii) : result Z :=
  let n := Z.of_N (N_of_ascii c) in
  if bool_decide (48 <= n <= 57) then Returned (n - 48) else Raised IntValueError.

(** [l[k]] on a list: a negative index counts from the end, an index out of
    range raises [IndexError]. *)
Definition list_getitem {A} (l : list A) (k : Z) : result A :=
  let len := Z.of_nat (length l) in
  let k' := if bool_decide (k < 0) then k + len else k in
  if bool_decide (0 <= k' < len) then
    match l !! Z.to_nat k' with
    | Some x => Returned x
    | None => Raised IndexError
    end
  else Raised IndexError.

(** [s[k]] on a [str], with the same index rules. *)
Definition str_getitem (s : string) (k : Z) : result ascii :=
  list_getitem (list_ascii_of_string s) k.

(** [d[k]] on a [dict]: a missing key raises [KeyError]. *)
Definition dict_getitem `{Countable K} {V} (d : gmap K V) (k : K) : result V :=
  match d !! k with
  | Some v => Returned v
  | None => Raised KeyError
  end.

(** [dict(pairs)] and repeated [update]: a later pair overwrites an earlier one. *)
Definition dict_of_pairs `{Countable K} {V} (l : list (K * V)) : gmap K V :=
  foldl (λ d kv, <[kv.1 := kv.2]> d) ∅ l.

(** [''.join(l)]. *)
Definition str_join (l : list string) : string := String.concat "" l.

(** ['0' * k]: empty when [k] is not positive. *)
Definition zeros (k : Z) : string :=
  string_of_list_ascii (replicate (Z.to_nat k) "0"%char).

(** ['{:0>9}'.format(s)]: pad on the left with ['0'] up to width 9; a longer
    string is left as it is. *)
Definition format_fill0_right9 (s : string) : string :=
  zeros (9 - Z.of_nat (String.length s)) +:+ s.

(** ** The rule decoder *)

(** [neighborhoods], the list of neighborhood tuples in lexicographic order. *)
Definition neighborhoods : list (Z * Z) :=
  [(0,0); (0,1); (0,2); (1,0); (1,1); (1,2); (2,0); (2,1); (2,2)].

(** The loop
[[
    while rule_number > 0:
        rule_number, r = divmod(rule_number,3)
        tern_nums.append(str(r))
]]
    shared by both implementations; it returns [tern_nums]. Python's [divmod]
    by 3 is floor division, which is [Z.div] and [Z.modulo]. *)
Equations? ternary_loop (rule_number : Z) (tern_nums : list string) : list string
  by wf (Z.to_nat rule_number) lt :=
ternary_loop rule_number tern_nums with decide (rule_number > 0) := {
  | left _ => ternary_loop (rule_number `div` 3)
                           (tern_nums ++ [pretty (rule_number `mod` 3)]);
  | right _ => tern_nums }.
Proof.
  apply Z2Nat.inj_lt; [apply Z.div_pos; lia | lia | apply Z.div_lt; lia].
Qed.

(** [three_state_lookup_table(rule_number)] for an integer [rule_number]. *)
Definition three_state_lookup_table (rule_number : Z) : result (gmap (Z * Z) Z) :=
  if bool_decide (rule_number < 0 ∨ rule_number > 19682) then
    Raised (ValueError "rule_number must be an int between 0 and 19682, inclusive")
  else
    let tern_nums := ternary_loop rule_number [] in
    let tern_num := str_join (reverse tern_nums) in
    let in_ternary := format_fill0_right9 tern_num in
    outputs ← mapM (λ kc : (Z * Z) * ascii, v ← int_of_char kc.2; mret (kc.1, v))
                   (zip neighborhoods (reverse (list_ascii_of_string in_ternary)));
    mret (dict_of_pairs outputs).

(** The table of the first implementation (the script at the top of the
    file), as a function of its [rule_number]: digits are joined in the order
    they were produced, padded on the right, and stored as one-character
    strings. *)
Definition spaghetti_lookup_table (rule_number : Z) : result (gmap (Z * Z) ascii) :=
  let tern_nums := ternary_loop rule_number [] in
  let in_ternary := str_join tern_nums in
  let ternary_length := Z.of_nat (String.length in_ternary) in
  let in_ternary :=
    if bool_decide (ternary_length ≠ 9)
    then in_ternary +:+ zeros (9 - ternary_length)
    else in_ternary in
  foldl (λ (acc : result (gmap (Z * Z) ascii)) (i : Z),
           lookup_table ← acc;
           key ← list_getitem neighborhoods i;
           val ← str_getitem in_ternary i;
           mret (<[key := val]> lookup_table))
        (Returned ∅) (seqZ 0 9).

(** The output the first implementation reads from its table,
    [int(lookup_table[neighborhood])]. *)
Definition spaghetti_output (lookup_table : gmap (Z * Z) ascii) (neighborhood : Z * Z)
  : result Z :=
  c ← dict_getitem lookup_table neighborhood; int_of_char c.

(** ** The store of list objects *)

(** A configuration is a Python list, a mutable object: the store maps a
    location to the current content of the list that lives there. A new list
    gets the next free location; a location outside the store (which no
    program can hold) reads as the empty list. *)
Abbreviation loc := nat.
Abbreviation heap := (list (list Z)).

Definition alloc (h : heap) (l : list Z) : loc * heap := (length h, h ++ [l]).

(** [initial_condition[k] = v], done by the caller on its own list. *)
Definition list_setitem (l : loc) (k : Z) (v : Z) (h : heap) : result heap :=
  let len := Z.of_nat (length (h !!! l)) in
  let k' := if bool_decide (k < 0) then k + len else k in
  if bool_decide (0 <= k' < len)
  then Returned (<[l := <[Z.to_nat k' := v]> (h !!! l)]> h)
  else Raised IndexError.

(** The rows a list of locations denotes in a store. *)
Definition field_rows (h : heap) (spacetime_field : list loc) : list (list Z) :=
  (λ l, h !!! l) <$> spacetime_field.

(** ** The evolution engine *)

(** The check [if i not in [0,1,2]: raise ValueError(msg)] over the list. *)
Definition check_symbols (msg : string) (initial_condition : list Z) : result unit :=
  foldl (λ (acc : result unit) (i : Z),
           _ ← acc;
           if bool_decide (i ∉ [0; 1; 2]) then Raised (ValueError msg) else mret ())
        (Returned ()) initial_condition.

(** The inner loop, the same in the function and in the method:
[[
    for i in range(length):
        neighborhood = (current_configuration[(i-1)], current_configuration[i])
        new_configuration.append(lookup[neighborhood])
]]
    [new_configuration] is a list no other name refers to while the loop
    runs, so it is built as a value and put in the store when complete. *)
Fixpoint new_configuration_loop (lookup : gmap (Z * Z) Z) (current_configuration : list Z)
    (indices : list Z) (new_configuration : list Z) : result (list Z) :=
  match indices with
  | [] => Returned new_configuration
  | i :: indices =>
      left ← list_getitem current_configuration (i - 1);
      self ← list_getitem current_configuration i;
      out ← dict_getitem lookup (left, self);
      new_configuration_loop lookup current_configuration indices
                             (new_configuration ++ [out])
  end.

(** The loop [for t in range(time_steps)] of [three_state_spacetime_field]. *)
Fixpoint spacetime_field_loop (lookup : gmap (Z * Z) Z) (length : Z) (steps : nat)
    (current_configuration : loc) (spacetime_field : list loc) (h : heap)
  : result (list loc * heap) :=
  match steps with
  | O => Returned (spacetime_field, h)
  | S steps =>
      row ← new_configuration_loop lookup (h !!! current_configuration)
                                    (seqZ 0 length) [];
      let '(new_configuration, h) := alloc h row in
      spacetime_field_loop lookup length steps new_configuration
                           (spacetime_field ++ [new_configuration]) h
  end.

(** The instance state of [three_state_CA]. *)
Record three_state_CA : Type := {
  lookup_table : gmap (Z * Z) Z;
  initial : loc;
  spacetime : list loc;
  current_configuration : loc;
  _length : Z
}.

(** The loop [for _ in range(time_steps)] of [three_state_CA.evolve]; when a
    step raises, the instance keeps what the earlier steps did. *)
Fixpoint evolve_loop (steps : nat) (self : three_state_CA) (h : heap)
  : result unit * three_state_CA * heap :=
  match steps with
  | O => (Returned (), self, h)
  | S steps =>
      match new_configuration_loop (lookup_table self) (h !!! current_configuration self)
                                   (seqZ 0 (_length self)) [] with
      | Raised e => (Raised e, self, h)
      | Returned row =>
          let '(new_configuration, h) := alloc h row in
          evolve_loop steps
            {| lookup_table := lookup_table self;
               initial := initial self;
               spacetime := spacetime self ++ [new_configuration];
               current_configuration := new_configuration;
               _length := _length self |} h
      end
  end.

(** [three_state_CA(rule_number, initial_condition)]. *)
Definition three_state_CA_init (rule_number : Z) (initial_condition : loc) (h : heap)
  : result (three_state_CA * heap) :=
  _ ← check_symbols "initial condition must be a list of 0s, 1s, and 2s"
                    (h !!! initial_condition);
  table ← three_state_lookup_table rule_number;
  let '(copy, h') := alloc h (h !!! initial_condition) in
  mret ({| lookup_table := table;
           initial := initial_condition;
           spacetime := [initial_condition];
           current_configuration := copy;
           _length := Z.of_nat (length (h !!! initial_condition)) |}, h').

Section WithIntOfStr.

(** The builtin [int] on an arbitrary [str] is taken as given: [None] is
    its [ValueError]. *)
Variable int_of_str : string → option Z.

(** [int(v)]. *)
Definition py_int (v : pyval) : result Z :=
  match v with
  | PyInt z => Returned z
  | PyBool b => Returned (Z.b2z b)
  | PyStr s => match int_of_str s with
               | Some z => Returned z
               | None => Raised IntValueError
               end
  | PyNone => Raised TypeError
  end.

(** The prologue of [three_state_spacetime_field] and of [evolve]:
[[
  if time_steps < 0:
      raise ValueError("time_steps must be a non-negative integer")
  try:
      time_steps = int(time_steps)
  except ValueError:
      raise ValueError("time_steps must be a non-negative integer")
]] *)
Definition check_time_steps (time_steps : pyval) : result Z :=
  negative ← py_lt time_steps 0;
  if negative : bool
  then Raised (ValueError "time_steps must be a non-negative integer")
  else match py_int time_steps with
       | Returned n => Returned n
       | Raised e =>
           if is_ValueError e
           then Raised (ValueError "time_steps must be a non-negative integer")
           else Raised e
       end.

(** [three_state_spacetime_field(rule_number, initial_condition, time_steps)]:
    the returned field is a list of locations, its first entry the caller's
    own list. *)
Definition three_state_spacetime_field (rule_number : Z) (initial_condition : loc)
    (time_steps : pyval) (h : heap) : result (list loc * heap) :=
  time_steps ← check_time_steps time_steps;
  _ ← check_symbols "initial condition must be a list of 0s, 1s and 2s"
                    (h !!! initial_condition);
  lookup ← three_state_lookup_table rule_number;
  let length := Z.of_nat (length (h !!! initial_condition)) in
  let spacetime_field := [initial_condition] in
  let '(current_configuration, h) := alloc h (h !!! initial_condition) in
  spacetime_field_loop lookup length (Z.to_nat time_steps)
                       current_configuration spacetime_field h.

(** [three_state_CA.evolve(self, time_steps)]: the outcome, and the instance
    and store it leaves. *)
Definition evolve (time_steps : pyval) (self : three_state_CA) (h : heap)
  : result unit * three_state_CA * heap :=
  match check_time_steps time_steps with
  | Raised e => (Raised e, self, h)
  | Returned time_steps => evolve_loop (Z.to_nat time_steps) self h
  end.

End WithIntOfStr.

(** ** Definitions used to state the properties *)

(** The base-3 digit of weight [3 ^ k] of [r]. *)
Definition digit (r : Z) (k : nat) : Z := (r `div` 3 ^ Z.of_nat k) `mod` 3.

(** The character of a decimal digit. *)
Definition digit_char (d : Z) : ascii := ascii_of_N (Z.to_N (48 + d)).

(** The nine characters both decoders end up with, read in the order in which
    they are paired with [neighborhoods]: the digit of weight [3 ^ j] at
    place [j]. *)
Definition decoded_chars (r : Z) : list ascii :=
  (λ j, digit_char (digit r j)) <$> seq 0 9.

(** The table of the function-based decoder, in closed form. *)
Definition digit_table (r : Z) : gmap (Z * Z) Z :=
  dict_of_pairs (zip neighborhoods (digit r <$> seq 0 9)).

(** The digit at position [p] of the 9-digit base-3 numeral of [r] written
    most significant digit first: position 0 has weight [3 ^ 8]. *)
Definition msd_digit (r : Z) (p : nat) : Z := digit r (8 - p).

(** The assignment the specification describes: the digit at position [p],
    most significant first, is the output of the [p]-th neighborhood. *)
Definition msd_first_assignment (r : Z) : Prop :=
  ∃ t, three_state_lookup_table r = Returned t
       ∧ ∀ (p : nat) nb, neighborhoods !! p = Some nb → t !! nb = Some (msd_digit r p).

(** The two decoders agree at [r]: both return a table, and the output the
    first implementation reads for a neighborhood is the entry of the second. *)
Definition decoders_agree (r : Z) : Prop :=
  ∃ tS tF, spaghetti_lookup_table r = Returned tS
           ∧ three_state_lookup_table r = Returned tF
           ∧ ∀ nb, spaghetti_output tS nb = dict_getitem tF nb.

(** A cell value. *)
Definition symbol (x : Z) : Prop := x ∈ [0; 1; 2].

(** A table that answers every neighborhood of symbols with a symbol. *)
Definition table_total (tbl : gmap (Z * Z) Z) : Prop :=
  ∀ a b, symbol a → symbol b → ∃ v, tbl !! (a, b) = Some v ∧ symbol v.

(** The next value of cell [i]: the table's answer to the pair made of the
    cell to its left, circularly, and the cell itself, both in the previous row. *)
Definition next_cell (tbl : gmap (Z * Z) Z) (row : list Z) (i : nat) : Z :=
  tbl !!! (row !!! Z.to_nat ((Z.of_nat i - 1) `mod` Z.of_nat (length row)), row !!! i).

(** One synchronous update of a row, read off the previous row only. *)
Definition next_row (tbl : gmap (Z * Z) Z) (row : list Z) : list Z :=
  next_cell tbl row <$> seq 0 (length row).

(** The [k] rows that follow [row]. *)
Fixpoint iterates (tbl : gmap (Z * Z) Z) (row : list Z) (k : nat) : list (list Z) :=
  match k with
  | O => []
  | S k => next_row tbl row :: iterates tbl (next_row tbl row) k
  end.

(** ** The rest of the file: random initial conditions and the scripts *)

(** [isinstance(v, int)]: [bool] is a subclass of [int]. *)
Definition isinstance_int (v : pyval) : bool :=
  match v with
  | PyInt _ | PyBool _ => true
  | PyStr _ | PyNone => false
  end.

(** The integer [range] takes from its argument. *)
Definition py_index (v : pyval) : result Z :=
  match v with
  | PyInt z => Returned z
  | PyBool b => Returned (Z.b2z b)
  | PyStr _ | PyNone => Raised TypeError
  end.

(** The first implementation's inner loop: as [new_configuration_loop], but
    the table holds characters and the loop appends
    [int(lookup_table[neighborhood])]. *)
Fixpoint spaghetti_new_configuration_loop (lookup_table : gmap (Z * Z) ascii)
    (current_configuration : list Z) (indices : list Z) (new_configuration : list Z)
  : result (list Z) :=
  match indices with
  | [] => Returned new_configuration
  | i :: indices =>
      left ← list_getitem current_configuration (i - 1);
      self ← list_getitem current_configuration i;
      out ← spaghetti_output lookup_table (left, self);
      spaghetti_new_configuration_loop lookup_table current_configuration indices
                                       (new_configuration ++ [out])
  end.

(** The first implementation's loop [for t in range(time)]; the inner range
    is [range(len(current_configuration))], taken anew at every step. *)
Fixpoint spaghetti_time_loop (lookup_table : gmap (Z * Z) ascii) (steps : nat)
    (current_configuration : loc) (spacetime_field : list loc) (h : heap)
  : result (list loc * heap) :=
  match steps with
  | O => Returned (spacetime_field, h)
  | S steps =>
      row ← spaghetti_new_configuration_loop
               lookup_table (h !!! current_configuration)
               (seqZ 0 (Z.of_nat (length (h !!! current_configuration)))) [];
      let '(new_configuration, h) := alloc h row in
      spaghetti_time_loop lookup_table steps new_configuration
                          (spacetime_field ++ [new_configuration]) h
  end.

(** The first implementation from its table to its field (script lines
    31-68), as a function of the names it reads: [rule_number],
    [initial_condition] and [time]. Nothing is checked. *)
Definition spaghetti_spacetime_field (rule_number : Z) (initial_condition : loc)
    (time : Z) (h : heap) : result (list loc * heap) :=
  lookup_table ← spaghetti_lookup_table rule_number;
  let spacetime_field := [initial_condition] in
  let '(current_configuration, h) := alloc h (h !!! initial_condition) in
  spaghetti_time_loop lookup_table (Z.to_nat time) current_configuration
                      spacetime_field h.

Section WithDraws.

(** The random source: [draws k] is what the [k]-th call of
    [random.randint(0,2)] returns; a computation that draws is given the
    number of the next draw and returns the number after its last one. *)
Variable draws : nat → Z.

(** [random_ternary_string(length)]. *)
Definition random_ternary_string (length : pyval) (next_draw : nat)
  : result (list Z * nat) :=
  invalid ← (if negb (isinstance_int length) then Returned true else py_lt length 0);
  if invalid : bool
  then Raised (ValueError "input length must be a positive ingeter")
  else
    n ← py_index length;
    mret (draws <$> seq next_draw (Z.to_nat n), (next_draw + Z.to_nat n)%nat).

(** The first implementation's initial condition (script lines 27-29):
[[
    initial_condition = []
    for i in range(length):
        initial_condition.append(random.randint(0,2))
]] *)
Definition spaghetti_initial_condition (length : Z) (next_draw : nat)
  : list Z * nat :=
  foldl (λ (acc : list Z * nat) (_ : Z), (acc.1 ++ [draws acc.2], S acc.2))
        ([], next_draw) (seqZ 0 length).

(** The whole first script up to the plot, over its three constants. *)
Definition spaghetti_script (rule_number length time : Z) (next_draw : nat) (h : heap)
  : result (list loc * heap) :=
  let '(initial_condition, _) := spaghetti_initial_condition length next_draw in
  let '(initial_condition, h) := alloc h initial_condition in
  spaghetti_spacetime_field rule_number initial_condition time h.

(** The last cell up to the plot, over its three constants:
[[
    CA = three_state_CA(8711,random_ternary_string(100))
    CA.evolve(100)
]]
    It returns the instance and the store it leaves. *)
Definition random_CA_script (int_of_str : string → option Z)
    (rule_number : Z) (length time_steps : pyval) (next_draw : nat) (h : heap)
  : result (three_state_CA * heap) :=
  drawn ← random_ternary_string length next_draw;
  let '(initial_condition, h) := alloc h drawn.1 in
  made ← three_state_CA_init rule_number initial_condition h;
  match evolve int_of_str time_steps made.1 made.2 with
  | (Returned _, CA, h) => Returned (CA, h)
  | (Raised e, _, _) => Raised e
  end.

End WithDraws.

(** ** More definitions used to state the properties *)

(** The rule index whose base-3 digits, least significant first, are [ds]. *)
Definition rule_number_of_digits (ds : list Z) : Z :=
  foldr (λ d acc, d + 3 * acc) 0 ds.

(** What holds of a [three_state_CA] instance [N] steps after it was made
    from [config], as long as nobody else writes to its lists: its table is
    [tbl], its field reads the initial row and the [N] rows after it, and
    [current_configuration] holds the last of them. *)
Definition ca_invariant (tbl : gmap (Z * Z) Z) (config : list Z) (N : nat)
    (self : three_state_CA) (h : heap) : Prop :=
  lookup_table self = tbl
  ∧ _length self = Z.of_nat (length config)
  ∧ h !! current_configuration self = Some (Nat.iter N (next_row tbl) config)
  ∧ field_rows h (spacetime self) = config :: iterates tbl config N
  ∧ Forall (λ l, (l < length h)%nat) (spacetime self).

(** A caller that calls [evolve] with each of the integers of a list in turn
    and stops at the first call that raises. *)
Fixpoint evolve_each (int_of_str : string → option Z) (time_steps : list Z)
    (self : three_state_CA) (h : heap) : result unit * three_state_CA * heap :=
  match time_steps with
  | [] => (Returned (), self, h)
  | n :: time_steps =>
      match evolve int_of_str (PyInt n) self h with
      | (Returned _, self, h) => evolve_each int_of_str time_steps self h
      | raised => raised
      end
  end.

(** * Properties *)

(** ** The decoder's digits *)

Lemma ternary_loop_step r acc :
  r > 0 → ternary_loop r acc = ternary_loop (r `div` 3) (acc ++ [pretty (r `mod` 3)]).
Proof.
  intros Hr. rewrite ternary_loop_equation_1.
  destruct (decide (r > 0)) as [Hp|Hn]; [reflexivity | contradiction].
Qed.

Lemma ternary_loop_done r acc : ¬ r > 0 → ternary_loop r acc = acc.
Proof.
  intros Hr. rewrite ternary_loop_equation_1.
  destruct (decide (r > 0)) as [Hp|Hn]; [contradiction | reflexivity].
Qed.

Lemma digit_range r k : 0 ≤ digit r k < 3.
Proof. unfold digit. apply Z.mod_pos_bound. lia. Qed.

Lemma digit_0 r : digit r 0 = r `mod` 3.
Proof. unfold digit. simpl. by rewrite Z.div_1_r. Qed.

Lemma digit_S r k : 0 ≤ r → digit r (S k) = digit (r `div` 3) k.
Proof.
  intros Hr. unfold digit. rewrite Nat2Z.inj_succ, Z.pow_succ_r by lia.
  rewrite Z.div_div by lia. reflexivity.
Qed.

Lemma digit_zero k : digit 0 k = 0.
Proof. unfold digit. by rewrite Z.div_0_l by lia. Qed.

Lemma pretty_digit d : 0 ≤ d < 3 → pretty d = String (digit_char d) "".
Proof.
  intros Hd. assert (d = 0 ∨ d = 1 ∨ d = 2) as [->|[->| ->]] by lia; reflexivity.
Qed.

Lemma int_of_char_digit d : 0 ≤ d < 3 → int_of_char (digit_char d) = Returned d.
Proof.
  intros Hd. assert (d = 0 ∨ d = 1 ∨ d = 2) as [->|[->| ->]] by lia; reflexivity.
Qed.

(** The loop appends the digits of [r], least significant first, and stops
    when only zero digits are left. *)
Lemma ternary_loop_digits (n : nat) : ∀ r acc,
  0 ≤ r < 3 ^ Z.of_nat n →
  ∃ k : nat, (k ≤ n)%nat
    ∧ ternary_loop r acc
      = acc ++ ((λ j, String (digit_char (digit r j)) "") <$> seq 0 k)
    ∧ ∀ j, (k ≤ j)%nat → digit r j = 0.
Proof.
  induction n as [|n IH]; intros r acc Hr.
  - assert (r = 0) as -> by (simpl in Hr; lia).
    exists 0%nat. split; [lia|]. split.
    + rewrite ternary_loop_done by lia. simpl. by rewrite app_nil_r.
    + intros j _. apply digit_zero.
  - destruct (decide (r > 0)) as [Hpos|Hnp].
    + rewrite Nat2Z.inj_succ, Z.pow_succ_r in Hr by lia.
      destruct (IH (r `div` 3) (acc ++ [pretty (r `mod` 3)])) as (k & Hk & Hloop & Hz).
      { split; [apply Z.div_pos; lia | apply Z.div_lt_upper_bound; lia]. }
      exists (S k). split; [lia|]. split.
      * rewrite ternary_loop_step, Hloop by done.
        rewrite <- app_assoc. f_equal. simpl. rewrite digit_0.
        rewrite pretty_digit by (apply Z.mod_pos_bound; lia). f_equal.
        rewrite <- fmap_S_seq, <- list_fmap_compose.
        apply list_fmap_ext. intros i j _. simpl. by rewrite digit_S by lia.
      * intros [|j] Hj; [lia|]. rewrite digit_S by lia. apply Hz. lia.
    + assert (r = 0) as -> by lia.
      exists 0%nat. split; [lia|]. split.
      * rewrite ternary_loop_done by lia. simpl. by rewrite app_nil_r.
      * intros j _. apply digit_zero.
Qed.

(** *** Strings as character lists *)

Lemma list_ascii_of_string_app s1 s2 :
  list_ascii_of_string (s1 +:+ s2) = list_ascii_of_string s1 ++ list_ascii_of_string s2.
Proof. induction s1 as [|c s1 IH]; simpl; [reflexivity | by rewrite IH]. Qed.

Lemma string_length_chars s : String.length s = length (list_ascii_of_string s).
Proof. induction s as [|c s IH]; simpl; [reflexivity | by rewrite IH]. Qed.

Lemma list_ascii_of_zeros k :
  list_ascii_of_string (zeros k) = replicate (Z.to_nat k) "0"%char.
Proof. unfold zeros. apply list_ascii_of_string_of_list_ascii. Qed.

Lemma str_join_singletons (l : list ascii) :
  list_ascii_of_string (str_join ((λ c, String c "") <$> l)) = l.
Proof.
  unfold str_join. induction l as [|c l IH]; [reflexivity|].
  destruct l as [|c' l]; [reflexivity|].
  change (c :: list_ascii_of_string (String.concat "" ((λ c, String c "") <$> c' :: l))
          = c :: c' :: l).
  by rewrite IH.
Qed.

Lemma digit_chars_zero r (m : nat) : ∀ k : nat,
  (∀ j, (k ≤ j)%nat → digit r j = 0) →
  (λ j, digit_char (digit r j)) <$> seq k m = replicate m "0"%char.
Proof.
  induction m as [|m IH]; intros k Hz; [reflexivity|].
  simpl. rewrite Hz by lia. f_equal. apply IH. intros j Hj. apply Hz. lia.
Qed.

Lemma ternary_loop_chars r :
  0 ≤ r ≤ 19682 →
  ∃ k : nat, (k ≤ 9)%nat
    ∧ list_ascii_of_string (str_join (ternary_loop r [])) 
      = (λ j, digit_char (digit r j)) <$> seq 0 k
    ∧ list_ascii_of_string (str_join (reverse (ternary_loop r [])))
      = reverse ((λ j, digit_char (digit r j)) <$> seq 0 k)
    ∧ ((λ j, digit_char (digit r j)) <$> seq 0 k) ++ replicate (9 - k) "0"%char
      = decoded_chars r.
Proof.
  intros Hr.
  destruct (ternary_loop_digits 9 r []) as (k & Hk & Hloop & Hz); [simpl; lia|].
  exists k. split; [done|]. simpl in Hloop. rewrite Hloop.
  rewrite (list_fmap_compose (λ j, digit_char (digit r j)) (λ c, String c "")).
  split; [apply str_join_singletons|]. split.
  - rewrite <- fmap_reverse. apply str_join_singletons.
  - unfold decoded_chars.
    replace 9%nat with (k + (9 - k))%nat at 2 by lia.
    rewrite seq_app, fmap_app. f_equal. symmetry. by apply digit_chars_zero.
Qed.

Lemma function_decoder_chars r :
  0 ≤ r ≤ 19682 →
  reverse (list_ascii_of_string
             (format_fill0_right9 (str_join (reverse (ternary_loop r [])))))
  = decoded_chars r.
Proof.
  intros Hr. destruct (ternary_loop_chars r Hr) as (k & Hk & _ & Hrev & Hpad).
  unfold format_fill0_right9.
  rewrite list_ascii_of_string_app, list_ascii_of_zeros, string_length_chars, Hrev.
  rewrite length_reverse, length_fmap, length_seq.
  rewrite reverse_app, reverse_involutive, reverse_replicate.
  replace (Z.to_nat (9 - Z.of_nat k)) with (9 - k)%nat by lia. exact Hpad.
Qed.

Lemma spaghetti_decoder_chars r :
  0 ≤ r ≤ 19682 →
  let in_ternary := str_join (ternary_loop r []) in
  let ternary_length := Z.of_nat (String.length in_ternary) in
  list_ascii_of_string
    (if bool_decide (ternary_length ≠ 9)
     then in_ternary +:+ zeros (9 - ternary_length) else in_ternary)
  = decoded_chars r.
Proof.
  intros Hr. destruct (ternary_loop_chars r Hr) as (k & Hk & Hfwd & _ & Hpad).
  cbv zeta. rewrite string_length_chars, Hfwd, length_fmap, length_seq.
  case_bool_decide as Hlen.
  - rewrite list_ascii_of_string_app, list_ascii_of_zeros, Hfwd.
    replace (Z.to_nat (9 - Z.of_nat k)) with (9 - k)%nat by lia. exact Hpad.
  - assert (k = 9%nat) as -> by lia. rewrite Hfwd. reflexivity.
Qed.

Lemma three_state_lookup_table_digits r :
  0 ≤ r ≤ 19682 → three_state_lookup_table r = Returned (digit_table r).
Proof.
  intros Hr. unfold three_state_lookup_table.
  rewrite bool_decide_eq_false_2 by lia. cbv zeta.
  rewrite function_decoder_chars by done.
  unfold decoded_chars, digit_table. simpl.
  rewrite !int_of_char_digit by apply digit_range. reflexivity.
Qed.


(** ** The table, neighborhood by neighborhood *)

Lemma dict_of_nine_lookup (d0 d1 d2 d3 d4 d5 d6 d7 d8 : Z) (k : nat) nb :
  neighborhoods !! k = Some nb →
  dict_of_pairs (zip neighborhoods [d0; d1; d2; d3; d4; d5; d6; d7; d8]) !! nb
  = [d0; d1; d2; d3; d4; d5; d6; d7; d8] !! k.
Proof.
  intros Hk.
  do 9 (destruct k as [|k]; [injection Hk as <-; vm_compute; reflexivity|]).
  discriminate Hk.
Qed.

Lemma digit_table_lookup r (k : nat) nb :
  neighborhoods !! k = Some nb → digit_table r !! nb = Some (digit r k).
Proof.
  intros Hk.
  assert (k < 9)%nat as Hlt by (apply lookup_lt_Some in Hk; exact Hk).
  unfold digit_table.
  change (digit r <$> seq 0 9)
    with [digit r 0; digit r 1; digit r 2; digit r 3; digit r 4;
          digit r 5; digit r 6; digit r 7; digit r 8].
  rewrite (dict_of_nine_lookup _ _ _ _ _ _ _ _ _ k nb Hk).
  do 9 (destruct k as [|k]; [reflexivity|]). lia.
Qed.

Lemma digit_table_lookup_None r nb : nb ∉ neighborhoods → digit_table r !! nb = None.
Proof.
  intros Hnb. unfold digit_table, dict_of_pairs. simpl.
  rewrite !lookup_insert_ne; [apply lookup_empty | ..];
    intros <-; apply Hnb; unfold neighborhoods; rewrite !elem_of_cons; tauto.
Qed.

Lemma symbol_cases x : symbol x ↔ x = 0 ∨ x = 1 ∨ x = 2.
Proof. unfold symbol. rewrite !elem_of_cons, elem_of_nil. tauto. Qed.

Lemma symbol_neighborhood a b : symbol a → symbol b → ∃ k, neighborhoods !! k = Some (a, b).
Proof.
  rewrite !symbol_cases. intros [Ha|[Ha|Ha]] [Hb|[Hb|Hb]]; subst a b;
    [by exists 0%nat | by exists 1%nat | by exists 2%nat
    | by exists 3%nat | by exists 4%nat | by exists 5%nat
    | by exists 6%nat | by exists 7%nat | by exists 8%nat].
Qed.

Lemma symbol_digit r k : symbol (digit r k).
Proof. apply symbol_cases. pose proof (digit_range r k). lia. Qed.

Lemma digit_table_total r : table_total (digit_table r).
Proof.
  intros a b Ha Hb. destruct (symbol_neighborhood a b Ha Hb) as [k Hk].
  exists (digit r k). split; [by apply digit_table_lookup | apply symbol_digit].
Qed.

(** A rule index below [3 ^ 9] is the sum of its nine digits. *)
Lemma digits_sum r :
  0 ≤ r ≤ 19682 →
  r = digit r 0 + 3 * digit r 1 + 9 * digit r 2 + 27 * digit r 3 + 81 * digit r 4
      + 243 * digit r 5 + 729 * digit r 6 + 2187 * digit r 7 + 6561 * digit r 8.
Proof.
  intros Hr. unfold digit. simpl Z.of_nat.
  change (3 ^ 0) with 1. change (3 ^ 1) with 3. change (3 ^ 2) with 9.
  change (3 ^ 3) with 27. change (3 ^ 4) with 81. change (3 ^ 5) with 243.
  change (3 ^ 6) with 729. change (3 ^ 7) with 2187. change (3 ^ 8) with 6561.
  Z.div_mod_to_equations. lia.
Qed.

(** ** The first implementation's table *)

Lemma spaghetti_fold_nine (c0 c1 c2 c3 c4 c5 c6 c7 c8 : ascii) :
  foldl (λ (acc : result (gmap (Z * Z) ascii)) (i : Z),
           lookup_table ← acc;
           key ← list_getitem neighborhoods i;
           val ← list_getitem [c0; c1; c2; c3; c4; c5; c6; c7; c8] i;
           mret (<[key := val]> lookup_table))
        (Returned ∅) (seqZ 0 9)
  = Returned (dict_of_pairs (zip neighborhoods [c0; c1; c2; c3; c4; c5; c6; c7; c8])).
Proof. vm_compute. reflexivity. Qed.

Lemma fmap_dict_of_nine (f : Z → ascii) (d0 d1 d2 d3 d4 d5 d6 d7 d8 : Z) :
  f <$> dict_of_pairs (zip neighborhoods [d0; d1; d2; d3; d4; d5; d6; d7; d8])
  = dict_of_pairs (zip neighborhoods
                       [f d0; f d1; f d2; f d3; f d4; f d5; f d6; f d7; f d8]).
Proof. vm_compute. reflexivity. Qed.

(** The first implementation stores, for each neighborhood, the character of
    the digit the second one stores. *)
Lemma spaghetti_lookup_table_digits r :
  0 ≤ r ≤ 19682 → spaghetti_lookup_table r = Returned (digit_char <$> digit_table r).
Proof.
  intros Hr. unfold spaghetti_lookup_table, str_getitem. cbv zeta.
  rewrite (spaghetti_decoder_chars r Hr).
  unfold digit_table.
  change (digit r <$> seq 0 9)
    with [digit r 0; digit r 1; digit r 2; digit r 3; digit r 4;
          digit r 5; digit r 6; digit r 7; digit r 8].
  rewrite fmap_dict_of_nine. apply spaghetti_fold_nine.
Qed.

Lemma decoders_agree_in_range r : 0 ≤ r ≤ 19682 → decoders_agree r.
Proof.
  intros Hr. exists (digit_char <$> digit_table r), (digit_table r).
  split; [by apply spaghetti_lookup_table_digits|].
  split; [by apply three_state_lookup_table_digits|].
  intros nb. unfold spaghetti_output, dict_getitem. rewrite lookup_fmap.
  destruct (decide (nb ∈ neighborhoods)) as [Hin|Hout].
  - apply list_elem_of_lookup in Hin as [k Hk].
    rewrite (digit_table_lookup r k nb Hk). simpl.
    apply int_of_char_digit, digit_range.
  - by rewrite digit_table_lookup_None.
Qed.

(** ** The claims about the rule decoder *)

(** C1 (as stated, refuted): at rule index 1, whose 9-digit numeral is
    [000000001], the table does not give neighborhood (0,0) the digit at
    position 0; it gives it the last digit, 1. *)
Lemma lookup_table_not_msd_first : ¬ msd_first_assignment 1.
Proof.
  intros (t & Ht & Hall).
  rewrite three_state_lookup_table_digits in Ht by lia.
  injection Ht as <-.
  specialize (Hall 0%nat (0, 0) eq_refl).
  rewrite (digit_table_lookup 1 0 (0, 0) eq_refl) in Hall.
  vm_compute in Hall. discriminate Hall.
Qed.

(** C1 (amended): for every rule index in [0, 19682] the table gives the
    [p]-th neighborhood in lexicographic order the digit at position [8 - p]
    of the 9-digit, most-significant-first numeral: the least significant
    digit is the output of (0,0), the most significant that of (2,2). *)
Theorem lookup_table_lsd_first r :
  0 ≤ r ≤ 19682 →
  ∃ t, three_state_lookup_table r = Returned t
       ∧ ∀ (p : nat) nb, neighborhoods !! p = Some nb →
                         t !! nb = Some (msd_digit r (8 - p)).
Proof.
  intros Hr. exists (digit_table r).
  split; [by apply three_state_lookup_table_digits|].
  intros p nb Hp. rewrite (digit_table_lookup r p nb Hp).
  assert (p < 9)%nat as Hlt by (apply lookup_lt_Some in Hp; exact Hp).
  unfold msd_digit. do 2 f_equal. lia.
Qed.

Lemma lookup_table_lsd_first_witness :
  0 ≤ 8711 ≤ 19682
  ∧ ∃ t, three_state_lookup_table 8711 = Returned t
         ∧ ∀ (p : nat) nb, neighborhoods !! p = Some nb →
                           t !! nb = Some (msd_digit 8711 (8 - p)).
Proof. split; [lia | apply (lookup_table_lsd_first 8711); lia]. Defined.

(** C8: the map from rule index to table is injective on [0, 19682]: the
    tables of two distinct rule indices differ on some neighborhood. *)
Theorem lookup_table_injective r1 r2 :
  0 ≤ r1 ≤ 19682 → 0 ≤ r2 ≤ 19682 → r1 ≠ r2 →
  ∃ t1 t2 nb, three_state_lookup_table r1 = Returned t1
              ∧ three_state_lookup_table r2 = Returned t2
              ∧ nb ∈ neighborhoods
              ∧ t1 !! nb ≠ t2 !! nb.
Proof.
  intros H1 H2 Hne. exists (digit_table r1), (digit_table r2).
  destruct (decide (Exists (λ nb, digit_table r1 !! nb ≠ digit_table r2 !! nb)
                           neighborhoods)) as [Hex|Hall].
  - apply Exists_exists in Hex as (nb & Hin & Hdiff). exists nb.
    by rewrite !three_state_lookup_table_digits.
  - exfalso. apply Hne.
    assert (∀ k : nat, (k < 9)%nat → digit r1 k = digit r2 k) as Hd.
    { intros k Hk.
      destruct (lookup_lt_is_Some_2 neighborhoods k Hk) as [nb Hnb].
      destruct (decide (digit_table r1 !! nb = digit_table r2 !! nb)) as [Heq|Hdiff].
      - rewrite !(digit_table_lookup _ k nb Hnb) in Heq. by injection Heq.
      - exfalso. apply Hall, Exists_exists. exists nb.
        split; [by eapply list_elem_of_lookup_2 | done]. }
    rewrite (digits_sum r1 H1), (digits_sum r2 H2).
    rewrite !Hd by lia. reflexivity.
Qed.

Lemma lookup_table_injective_witness :
  ∃ t1 t2 nb, three_state_lookup_table 0 = Returned t1
              ∧ three_state_lookup_table 1 = Returned t2
              ∧ nb ∈ neighborhoods
              ∧ t1 !! nb ≠ t2 !! nb.
Proof. apply (lookup_table_injective 0 1); lia. Defined.

(** C3 (as stated, refuted): no rule index in [0, 19682] makes the two
    decoders disagree. *)
Lemma decoders_never_disagree : ¬ ∃ r, 0 ≤ r ≤ 19682 ∧ ¬ decoders_agree r.
Proof. intros (r & Hr & Hdis). apply Hdis. by apply decoders_agree_in_range. Qed.

(** C3 (amended): for every rule index in [0, 19682] both implementations
    give the [k]-th neighborhood in lexicographic order the base-3 digit of
    weight [3 ^ k]; the first stores it as a one-character string, which it
    converts with [int] when it reads the table, the second as an integer. *)
Theorem decoders_same_digits r :
  0 ≤ r ≤ 19682 →
  ∃ tS tF, spaghetti_lookup_table r = Returned tS
           ∧ three_state_lookup_table r = Returned tF
           ∧ ∀ (k : nat) nb, neighborhoods !! k = Some nb →
               tS !! nb = Some (digit_char (digit r k))
               ∧ spaghetti_output tS nb = Returned (digit r k)
               ∧ tF !! nb = Some (digit r k).
Proof.
  intros Hr. exists (digit_char <$> digit_table r), (digit_table r).
  split; [by apply spaghetti_lookup_table_digits|].
  split; [by apply three_state_lookup_table_digits|].
  intros k nb Hk. unfold spaghetti_output, dict_getitem.
  rewrite lookup_fmap, (digit_table_lookup r k nb Hk). simpl.
  split; [done|]. split; [apply int_of_char_digit, digit_range | done].
Qed.

Lemma decoders_same_digits_witness :
  0 ≤ 8711 ≤ 19682
  ∧ ∃ tS tF, spaghetti_lookup_table 8711 = Returned tS
             ∧ three_state_lookup_table 8711 = Returned tF
             ∧ ∀ (k : nat) nb, neighborhoods !! k = Some nb →
                 tS !! nb = Some (digit_char (digit 8711 k))
                 ∧ spaghetti_output tS nb = Returned (digit 8711 k)
                 ∧ tF !! nb = Some (digit 8711 k).
Proof. split; [lia | apply (decoders_same_digits 8711); lia]. Defined.

(** ** One step of the automaton *)

Lemma list_getitem_wrap {A} `{!Inhabited A} (l : list A) (k : Z) :
  - Z.of_nat (length l) ≤ k < Z.of_nat (length l) →
  list_getitem l k = Returned (l !!! Z.to_nat (k `mod` Z.of_nat (length l))).
Proof.
  intros Hk. unfold list_getitem. cbv zeta.
  assert ((if bool_decide (k < 0) then k + Z.of_nat (length l) else k)
          = k `mod` Z.of_nat (length l)) as ->.
  { case_bool_decide.
    - apply (Z.mod_unique_pos _ _ (-1)); lia.
    - symmetry. apply Z.mod_small. lia. }
  pose proof (Z.mod_pos_bound k (Z.of_nat (length l))) as Hm.
  rewrite bool_decide_eq_true_2 by lia.
  destruct (lookup_lt_is_Some_2 l (Z.to_nat (k `mod` Z.of_nat (length l)))) as [x Hx];
    [lia|].
  rewrite Hx. f_equal. symmetry. by apply list_lookup_total_correct.
Qed.

Lemma list_getitem_nat {A} `{!Inhabited A} (l : list A) (i : nat) :
  (i < length l)%nat → list_getitem l (Z.of_nat i) = Returned (l !!! i).
Proof.
  intros Hi. rewrite list_getitem_wrap by lia.
  rewrite Z.mod_small by lia. by rewrite Nat2Z.id.
Qed.

Lemma symbol_lookup_total (row : list Z) (i : nat) :
  Forall symbol row → (i < length row)%nat → symbol (row !!! i).
Proof.
  intros Hrow Hi. destruct (lookup_lt_is_Some_2 row i Hi) as [x Hx].
  rewrite (list_lookup_total_correct _ _ _ Hx).
  by eapply Forall_lookup_1.
Qed.

Lemma wrap_index_lt (L : nat) (i : nat) :
  (i < L)%nat → (Z.to_nat ((Z.of_nat i - 1) `mod` Z.of_nat L) < L)%nat.
Proof.
  intros Hi. pose proof (Z.mod_pos_bound (Z.of_nat i - 1) (Z.of_nat L)). lia.
Qed.

Lemma next_cell_lookup tbl row (i : nat) :
  table_total tbl → Forall symbol row → (i < length row)%nat →
  tbl !! (row !!! Z.to_nat ((Z.of_nat i - 1) `mod` Z.of_nat (length row)), row !!! i)
  = Some (next_cell tbl row i)
  ∧ symbol (next_cell tbl row i).
Proof.
  intros Htbl Hrow Hi.
  destruct (Htbl (row !!! Z.to_nat ((Z.of_nat i - 1) `mod` Z.of_nat (length row)))
                 (row !!! i)) as (v & Hv & Hsym).
  { apply symbol_lookup_total; [done | by apply wrap_index_lt]. }
  { by apply symbol_lookup_total. }
  unfold next_cell. by rewrite (lookup_total_correct _ _ _ Hv).
Qed.

Lemma new_configuration_loop_cells tbl row :
  table_total tbl → Forall symbol row →
  ∀ (indices : list nat) acc,
    Forall (λ i, (i < length row)%nat) indices →
    new_configuration_loop tbl row (Z.of_nat <$> indices) acc
    = Returned (acc ++ (next_cell tbl row <$> indices)).
Proof.
  intros Htbl Hrow indices.
  induction indices as [|i indices IH]; intros acc Hlt; simpl.
  - by rewrite app_nil_r.
  - apply Forall_cons in Hlt as [Hi Hlt].
    rewrite (list_getitem_wrap row (Z.of_nat i - 1)) by lia. simpl.
    rewrite (list_getitem_nat row i) by done. simpl.
    unfold dict_getitem.
    destruct (next_cell_lookup tbl row i Htbl Hrow Hi) as [-> _]. simpl.
    rewrite IH by done. by rewrite <- app_assoc.
Qed.

Lemma seqZ_of_nat (L : nat) : seqZ 0 (Z.of_nat L) = Z.of_nat <$> seq 0 L.
Proof.
  unfold seqZ. rewrite Nat2Z.id. apply list_fmap_ext. intros _ i _. lia.
Qed.

(** On a row of symbols the inner loop returns [next_row]. *)
Lemma new_configuration_loop_next_row tbl row :
  table_total tbl → Forall symbol row →
  new_configuration_loop tbl row (seqZ 0 (Z.of_nat (length row))) []
  = Returned (next_row tbl row).
Proof.
  intros Htbl Hrow. rewrite seqZ_of_nat.
  rewrite (new_configuration_loop_cells tbl row Htbl Hrow); [done|].
  apply Forall_forall. intros i Hi. apply elem_of_seq in Hi. lia.
Qed.

Lemma length_next_row tbl row : length (next_row tbl row) = length row.
Proof. unfold next_row. by rewrite length_fmap, length_seq. Qed.

Lemma next_row_symbols tbl row :
  table_total tbl → Forall symbol row → Forall symbol (next_row tbl row).
Proof.
  intros Htbl Hrow. unfold next_row. apply Forall_fmap, Forall_forall.
  intros i Hi. apply elem_of_seq in Hi.
  apply (next_cell_lookup tbl row i Htbl Hrow). lia.
Qed.

Lemma next_row_lookup tbl row (i : nat) :
  (i < length row)%nat → next_row tbl row !! i = Some (next_cell tbl row i).
Proof.
  intros Hi. unfold next_row. rewrite list_lookup_fmap, lookup_seq_lt by done.
  reflexivity.
Qed.

(** ** The rows that follow a row *)

Lemma length_iterates tbl row k : length (iterates tbl row k) = k.
Proof. revert row. induction k as [|k IH]; intros row; simpl; [done | by rewrite IH]. Qed.

Lemma iterates_add tbl row (a b : nat) :
  iterates tbl row (a + b)
  = iterates tbl row a ++ iterates tbl (Nat.iter a (next_row tbl) row) b.
Proof.
  revert row. induction a as [|a IH]; intros row; [reflexivity|].
  cbn [Nat.add iterates app]. rewrite IH. by rewrite Nat.iter_succ_r.
Qed.

Lemma iterates_rows tbl row k :
  table_total tbl → Forall symbol row →
  Forall (λ r, length r = length row ∧ Forall symbol r) (iterates tbl row k).
Proof.
  intros Htbl. revert row. induction k as [|k IH]; intros row Hrow; simpl; [constructor|].
  constructor.
  - split; [apply length_next_row | by apply next_row_symbols].
  - eapply Forall_impl; [apply IH; by apply next_row_symbols|].
    intros r [Hlen Hsym]. split; [by rewrite Hlen, length_next_row | done].
Qed.

Lemma iter_next_row_symbols tbl row k :
  table_total tbl → Forall symbol row →
  Forall symbol (Nat.iter k (next_row tbl) row)
  ∧ length (Nat.iter k (next_row tbl) row) = length row.
Proof.
  intros Htbl Hrow. induction k as [|k [IHs IHl]]; simpl; [done|].
  split; [by apply next_row_symbols | by rewrite length_next_row].
Qed.

(** Each row of a history is the update of the row before it. *)
Lemma iterates_succ tbl row (n t : nat) :
  (t < n)%nat →
  ∃ r, (row :: iterates tbl row n) !! t = Some r
       ∧ (row :: iterates tbl row n) !! S t = Some (next_row tbl r).
Proof.
  revert row t. induction n as [|n IH]; intros row t Ht; [lia|].
  destruct t as [|t].
  - exists row. split; reflexivity.
  - destruct (IH (next_row tbl row) t) as (r & Hr & Hr'); [lia|].
    exists r. split; [exact Hr | exact Hr'].
Qed.

(** ** Reading rows from the store *)

Lemma field_rows_app h F1 F2 :
  field_rows h (F1 ++ F2) = field_rows h F1 ++ field_rows h F2.
Proof. unfold field_rows. apply fmap_app. Qed.

(** Allocation leaves the lists already in the store as they are. *)
Lemma field_rows_grow (h h' : heap) (F : list loc) :
  Forall (λ l, (l < length h)%nat) F → field_rows (h ++ h') F = field_rows h F.
Proof.
  intros HF. unfold field_rows. apply Forall_fmap_ext_1.
  eapply Forall_impl; [exact HF|]. intros l Hl. simpl.
  by apply lookup_total_app_l.
Qed.

Lemma field_rows_new (h rows : heap) :
  field_rows (h ++ rows) (seq (length h) (length rows)) = rows.
Proof.
  unfold field_rows. apply list_eq. intros i.
  rewrite list_lookup_fmap.
  destruct (decide (i < length rows)%nat) as [Hi|Hi].
  - rewrite lookup_seq_lt by done. simpl.
    destruct (lookup_lt_is_Some_2 rows i Hi) as [x Hx]. rewrite Hx. f_equal.
    apply list_lookup_total_correct.
    rewrite lookup_app_r by lia. by replace (length h + i - length h)%nat with i by lia.
  - rewrite lookup_seq_ge by lia. simpl. symmetry. apply lookup_ge_None. lia.
Qed.

(** ** The two time loops *)

Lemma spacetime_field_loop_spec tbl (steps : nat) :
  table_total tbl →
  ∀ (cur : loc) (row : list Z) (F : list loc) (h : heap) (len : Z),
    h !! cur = Some row → Forall symbol row → len = Z.of_nat (length row) →
    spacetime_field_loop tbl len steps cur F h
    = Returned (F ++ seq (length h) steps, h ++ iterates tbl row steps).
Proof.
  intros Htbl. induction steps as [|steps IH]; intros cur row F h len Hcur Hrow ->.
  - simpl. by rewrite !app_nil_r.
  - cbn [spacetime_field_loop iterates].
    rewrite (list_lookup_total_correct _ _ _ Hcur).
    rewrite new_configuration_loop_next_row by done.
    cbn [mbind result_bind alloc].
    rewrite (IH (length h) (next_row tbl row)).
    + rewrite length_app, <- !app_assoc. cbn [length app].
      by replace (length h + 1)%nat with (S (length h)) by lia.
    + rewrite lookup_app_r by lia. by rewrite Nat.sub_diag.
    + by apply next_row_symbols.
    + by rewrite length_next_row.
Qed.

Lemma evolve_loop_spec (steps : nat) :
  ∀ (self : three_state_CA) (h : heap) (row : list Z),
    table_total (lookup_table self) →
    h !! current_configuration self = Some row →
    Forall symbol row →
    _length self = Z.of_nat (length row) →
    ∃ self',
      evolve_loop steps self h
      = (Returned (), self', h ++ iterates (lookup_table self) row steps)
      ∧ lookup_table self' = lookup_table self
      ∧ _length self' = _length self
      ∧ spacetime self' = spacetime self ++ seq (length h) steps
      ∧ (h ++ iterates (lookup_table self) row steps) !! current_configuration self'
        = Some (Nat.iter steps (next_row (lookup_table self)) row).
Proof.
  induction steps as [|steps IH]; intros self h row Htbl Hcur Hrow Hlen.
  - exists self. simpl. rewrite !app_nil_r. by repeat split.
  - cbn [evolve_loop iterates].
    rewrite (list_lookup_total_correct _ _ _ Hcur), Hlen.
    rewrite new_configuration_loop_next_row by done.
    cbn [alloc].
    set (self1 := {| lookup_table := lookup_table self;
                     initial := initial self;
                     spacetime := spacetime self ++ [length h];
                     current_configuration := length h;
                     _length := Z.of_nat (length row) |}).
    destruct (IH self1 (h ++ [next_row (lookup_table self) row])
                 (next_row (lookup_table self) row))
      as (self' & Hrun & Htbl' & Hlen' & Hst & Hcur').
    + exact Htbl.
    + simpl. rewrite lookup_app_r by lia. by rewrite Nat.sub_diag.
    + by apply next_row_symbols.
    + simpl. by rewrite length_next_row.
    + exists self'. simpl in Hrun, Htbl', Hlen', Hst, Hcur'.
      rewrite <- app_assoc in Hrun, Hcur'. cbn [app] in Hrun, Hcur'.
      split; [exact Hrun|]. split; [exact Htbl'|]. split; [congruence|].
      split.
      * rewrite Hst, length_app, <- app_assoc. cbn [length app].
        by replace (length h + 1)%nat with (S (length h)) by lia.
      * by rewrite Nat.iter_succ_r.
Qed.

(** ** The entry checks on well-formed input *)

Lemma check_symbols_ok msg (l : list Z) :
  Forall symbol l → check_symbols msg l = Returned ().
Proof.
  unfold check_symbols. induction 1 as [|x l Hx _ IH]; [reflexivity|].
  cbn [foldl mbind result_bind].
  rewrite bool_decide_eq_false_2 by (intros Hn; by apply Hn). exact IH.
Qed.

Lemma check_time_steps_int int_of_str (n : Z) :
  0 ≤ n → check_time_steps int_of_str (PyInt n) = Returned n.
Proof.
  intros Hn. unfold check_time_steps. simpl.
  by rewrite bool_decide_eq_false_2 by lia.
Qed.

Lemma check_time_steps_negative int_of_str (n : Z) :
  n < 0 →
  check_time_steps int_of_str (PyInt n)
  = Raised (ValueError "time_steps must be a non-negative integer").
Proof.
  intros Hn. unfold check_time_steps. simpl.
  by rewrite bool_decide_eq_true_2 by lia.
Qed.

(** ** The function and the class on well-formed input *)

(** What [three_state_spacetime_field] returns: the field starts with the
    caller's own location, followed by one new location per step; the store
    gains a copy of the initial row and the new rows. *)
Lemma three_state_spacetime_field_returns int_of_str r (ic : loc) (config : list Z)
    (n : Z) (h : heap) :
  0 ≤ r ≤ 19682 → h !! ic = Some config → Forall symbol config → 0 ≤ n →
  three_state_spacetime_field int_of_str r ic (PyInt n) h
  = Returned (ic :: seq (S (length h)) (Z.to_nat n),
              h ++ config :: iterates (digit_table r) config (Z.to_nat n)).
Proof.
  intros Hr Hic Hsym Hn. unfold three_state_spacetime_field.
  rewrite check_time_steps_int by done. cbn [mbind result_bind].
  rewrite (list_lookup_total_correct _ _ _ Hic).
  rewrite check_symbols_ok by done. cbn [mbind result_bind].
  rewrite three_state_lookup_table_digits by done. cbn [mbind result_bind alloc].
  rewrite (spacetime_field_loop_spec _ _ (digit_table_total r) _ config).
  - rewrite length_app, <- app_assoc. cbn [length app].
    by replace (length h + 1)%nat with (S (length h)) by lia.
  - rewrite lookup_app_r by lia. by rewrite Nat.sub_diag.
  - done.
  - done.
Qed.

(** The rows of a field that starts at a location of the old store and goes
    on with the locations allocated after it. *)
Lemma field_rows_history (h : heap) (ic : loc) (config copy : list Z) (rows : heap) :
  h !! ic = Some config →
  field_rows (h ++ copy :: rows) (ic :: seq (S (length h)) (length rows))
  = config :: rows.
Proof.
  intros Hic. unfold field_rows. cbn [fmap list_fmap]. f_equal.
  - apply list_lookup_total_correct. by apply lookup_app_l_Some.
  - change (field_rows (h ++ copy :: rows) (seq (S (length h)) (length rows)) = rows).
    replace (h ++ copy :: rows) with ((h ++ [copy]) ++ rows) by by rewrite <- app_assoc.
    replace (S (length h)) with (length (h ++ [copy]))
      by (rewrite length_app; simpl; lia).
    apply field_rows_new.
Qed.

Lemma field_rows_returned tbl (h : heap) (ic : loc) (config : list Z) (N : nat) :
  h !! ic = Some config →
  field_rows (h ++ config :: iterates tbl config N) (ic :: seq (S (length h)) N)
  = config :: iterates tbl config N.
Proof.
  intros Hic.
  pose proof (field_rows_history h ic config config (iterates tbl config N) Hic) as H.
  by rewrite length_iterates in H.
Qed.

Lemma three_state_CA_init_returns r (ic : loc) (config : list Z) (h : heap) :
  0 ≤ r ≤ 19682 → h !! ic = Some config → Forall symbol config →
  three_state_CA_init r ic h
  = Returned ({| lookup_table := digit_table r;
                 initial := ic;
                 spacetime := [ic];
                 current_configuration := length h;
                 _length := Z.of_nat (length config) |}, h ++ [config]).
Proof.
  intros Hr Hic Hsym. unfold three_state_CA_init.
  rewrite (list_lookup_total_correct _ _ _ Hic).
  rewrite check_symbols_ok by done. cbn [mbind result_bind].
  rewrite three_state_lookup_table_digits by done. reflexivity.
Qed.

(** A fresh instance evolved [a] steps and then [b] steps: the outcome of
    both calls, the field of locations and the store at the end. *)
Lemma evolve_twice_returns int_of_str r (ic : loc) (config : list Z) (h : heap)
    (a b : Z) :
  0 ≤ r ≤ 19682 → h !! ic = Some config → Forall symbol config → 0 ≤ a → 0 ≤ b →
  ∃ ca0 h0 ca1 h1 ca2 h2,
    three_state_CA_init r ic h = Returned (ca0, h0)
    ∧ evolve int_of_str (PyInt a) ca0 h0 = (Returned (), ca1, h1)
    ∧ evolve int_of_str (PyInt b) ca1 h1 = (Returned (), ca2, h2)
    ∧ Z.of_nat (length (spacetime ca2)) = a + b + 1
    ∧ field_rows h2 (spacetime ca2)
      = config :: iterates (digit_table r) config (Z.to_nat a + Z.to_nat b).
Proof.
  intros Hr Hic Hsym Ha Hb.
  set (tbl := digit_table r).
  set (ca0 := {| lookup_table := tbl; initial := ic; spacetime := [ic];
                 current_configuration := length h;
                 _length := Z.of_nat (length config) |}).
  destruct (evolve_loop_spec (Z.to_nat a) ca0 (h ++ [config]) config)
    as (ca1 & Hrun1 & Htbl1 & Hlen1 & Hst1 & Hcur1).
  { apply digit_table_total. }
  { simpl. rewrite lookup_app_r by lia. by rewrite Nat.sub_diag. }
  { done. }
  { done. }
  simpl in Hrun1, Htbl1, Hlen1, Hst1, Hcur1.
  destruct (iter_next_row_symbols tbl config (Z.to_nat a)) as [Hsyma Hlena];
    [apply digit_table_total | done |].
  destruct (evolve_loop_spec (Z.to_nat b) ca1
              ((h ++ [config]) ++ iterates tbl config (Z.to_nat a))
              (Nat.iter (Z.to_nat a) (next_row tbl) config))
    as (ca2 & Hrun2 & Htbl2 & Hlen2 & Hst2 & Hcur2).
  { rewrite Htbl1. apply digit_table_total. }
  { exact Hcur1. }
  { exact Hsyma. }
  { rewrite Hlen1, Hlena. done. }
  rewrite Htbl1 in Hrun2.
  eexists ca0, _, ca1, _, ca2, _.
  split; [by apply three_state_CA_init_returns|].
  split; [unfold evolve; rewrite check_time_steps_int by done; exact Hrun1|].
  split; [unfold evolve; rewrite check_time_steps_int by done; exact Hrun2|].
  rewrite Hst2, Hst1. split.
  - rewrite length_app. cbn [length]. rewrite !length_seq. lia.
  - cbn [app].
    assert (seq (length (h ++ [config])) (Z.to_nat a)
            ++ seq (length ((h ++ [config]) ++ iterates tbl config (Z.to_nat a)))
                   (Z.to_nat b)
            = seq (S (length h)) (Z.to_nat a + Z.to_nat b)) as ->.
    { rewrite seq_app, !length_app, length_iterates. cbn [length].
      by replace (length h + 1)%nat with (S (length h)) by lia. }
    rewrite iterates_add, <- !app_assoc. cbn [app].
    replace (Z.to_nat a + Z.to_nat b)%nat
      with (length (iterates tbl config (Z.to_nat a)
                    ++ iterates tbl (Nat.iter (Z.to_nat a) (next_row tbl) config)
                                (Z.to_nat b)))
      by (by rewrite length_app, !length_iterates).
    by apply field_rows_history.
Qed.

Ltac symbols := repeat (constructor; [apply symbol_cases; lia|]); constructor.

(** ** The claims about the evolution engine *)

(** C6: on a rule index in [0, 19682], a configuration of symbols and a
    non-negative integer [n], the call returns a field of [n + 1] rows whose
    row 0 is the configuration, element for element. *)
Theorem spacetime_field_row_count int_of_str r (ic : loc) (config : list Z)
    (n : Z) (h : heap) :
  0 ≤ r ≤ 19682 → h !! ic = Some config → Forall symbol config → 0 ≤ n →
  ∃ F h',
    three_state_spacetime_field int_of_str r ic (PyInt n) h = Returned (F, h')
    ∧ Z.of_nat (length F) = n + 1
    ∧ field_rows h' F !! 0%nat = Some config.
Proof.
  intros Hr Hic Hsym Hn. eexists _, _.
  split; [by apply three_state_spacetime_field_returns|]. split.
  - cbn [length]. rewrite length_seq. lia.
  - by rewrite field_rows_returned.
Qed.

Lemma spacetime_field_row_count_witness :
  ∃ F h',
    three_state_spacetime_field (λ _, None) 8711 0%nat (PyInt 2) [[1; 0; 2; 1; 0]]
    = Returned (F, h')
    ∧ Z.of_nat (length F) = 2 + 1
    ∧ field_rows h' F !! 0%nat = Some [1; 0; 2; 1; 0].
Proof.
  apply (spacetime_field_row_count (λ _, None) 8711 0%nat [1; 0; 2; 1; 0] 2
                                   [[1; 0; 2; 1; 0]]);
    [lia | reflexivity | symbols | lia].
Defined.

(** C7: on such input every row of the field has the length of the initial
    configuration and every cell of every row is in {0, 1, 2}. *)
Theorem spacetime_field_rows_valid int_of_str r (ic : loc) (config : list Z)
    (n : Z) (h : heap) :
  0 ≤ r ≤ 19682 → h !! ic = Some config → Forall symbol config → 0 ≤ n →
  ∃ F h',
    three_state_spacetime_field int_of_str r ic (PyInt n) h = Returned (F, h')
    ∧ Forall (λ row, length row = length config ∧ Forall symbol row)
             (field_rows h' F).
Proof.
  intros Hr Hic Hsym Hn. eexists _, _.
  split; [by apply three_state_spacetime_field_returns|].
  rewrite field_rows_returned by done.
  constructor; [done|]. apply iterates_rows; [apply digit_table_total | done].
Qed.

Lemma spacetime_field_rows_valid_witness :
  ∃ F h',
    three_state_spacetime_field (λ _, None) 8711 0%nat (PyInt 2) [[1; 0; 2; 1; 0]]
    = Returned (F, h')
    ∧ Forall (λ row, length row = length [1; 0; 2; 1; 0] ∧ Forall symbol row)
             (field_rows h' F).
Proof.
  apply (spacetime_field_rows_valid (λ _, None) 8711 0%nat [1; 0; 2; 1; 0] 2
                                    [[1; 0; 2; 1; 0]]);
    [lia | reflexivity | symbols | lia].
Defined.

(** C5: with [L >= 1] cells and [n >= 1] steps, cell [i] of row [t + 1] is
    the table's output for the pair (cell [(i - 1) mod L], cell [i]) of
    row [t]; for cell 0 the left component is cell [L - 1] of row [t]. *)
Theorem spacetime_field_wraparound int_of_str r (ic : loc) (config : list Z)
    (n : Z) (h : heap) :
  0 ≤ r ≤ 19682 → h !! ic = Some config → Forall symbol config →
  (1 ≤ length config)%nat → 1 ≤ n →
  ∃ F h' tbl,
    three_state_spacetime_field int_of_str r ic (PyInt n) h = Returned (F, h')
    ∧ three_state_lookup_table r = Returned tbl
    ∧ ∀ t i : nat, Z.of_nat t < n → (i < length config)%nat →
        ∃ prev next left self out,
          field_rows h' F !! t = Some prev
          ∧ field_rows h' F !! S t = Some next
          ∧ prev !! Z.to_nat ((Z.of_nat i - 1) `mod` Z.of_nat (length config))
            = Some left
          ∧ prev !! i = Some self
          ∧ tbl !! (left, self) = Some out
          ∧ next !! i = Some out
          ∧ (i = 0%nat → prev !! (length config - 1)%nat = Some left).
Proof.
  intros Hr Hic Hsym HL Hn. eexists _, _, (digit_table r).
  split; [apply three_state_spacetime_field_returns; (done || lia)|].
  split; [by apply three_state_lookup_table_digits|].
  intros t i Ht Hi.
  rewrite field_rows_returned by done.
  destruct (iterates_succ (digit_table r) config (Z.to_nat n) t) as (prev & Hprev & Hnext);
    [lia|].
  assert (length prev = length config ∧ Forall symbol prev) as [Hlen Hsymp].
  { assert (Forall (λ row, length row = length config ∧ Forall symbol row)
                   (config :: iterates (digit_table r) config (Z.to_nat n))) as Hall.
    { constructor; [done|]. apply iterates_rows; [apply digit_table_total | done]. }
    by apply (Forall_lookup_1 _ _ _ _ Hall Hprev). }
  pose proof (digit_table_total r) as Htbl.
  assert (i < length prev)%nat as Hi' by lia.
  destruct (next_cell_lookup (digit_table r) prev i Htbl Hsymp Hi') as [Hout _].
  rewrite Hlen in Hout.
  pose proof (wrap_index_lt (length config) i Hi) as Hw.
  exists prev, (next_row (digit_table r) prev),
    (prev !!! Z.to_nat ((Z.of_nat i - 1) `mod` Z.of_nat (length config))),
    (prev !!! i), (next_cell (digit_table r) prev i).
  split; [exact Hprev|]. split; [exact Hnext|].
  split; [apply list_lookup_lookup_total_lt; lia|].
  split; [by apply list_lookup_lookup_total_lt|].
  split; [exact Hout|].
  split; [by apply next_row_lookup|].
  intros ->.
  replace (Z.to_nat ((Z.of_nat 0 - 1) `mod` Z.of_nat (length config)))
    with (length config - 1)%nat.
  - apply list_lookup_lookup_total_lt. lia.
  - rewrite <- (Z.mod_unique_pos (Z.of_nat 0 - 1) (Z.of_nat (length config)) (-1)
                                 (Z.of_nat (length config) - 1)); lia.
Qed.

Lemma spacetime_field_wraparound_witness :
  ∃ F h' tbl,
    three_state_spacetime_field (λ _, None) 8711 0%nat (PyInt 2) [[1; 0; 2; 1; 0]]
    = Returned (F, h')
    ∧ three_state_lookup_table 8711 = Returned tbl
    ∧ ∀ t i : nat, Z.of_nat t < 2 → (i < length [1; 0; 2; 1; 0])%nat →
        ∃ prev next left self out,
          field_rows h' F !! t = Some prev
          ∧ field_rows h' F !! S t = Some next
          ∧ prev !! Z.to_nat ((Z.of_nat i - 1) `mod` Z.of_nat (length [1; 0; 2; 1; 0]))
            = Some left
          ∧ prev !! i = Some self
          ∧ tbl !! (left, self) = Some out
          ∧ next !! i = Some out
          ∧ (i = 0%nat → prev !! (length [1; 0; 2; 1; 0] - 1)%nat = Some left).
Proof.
  apply (spacetime_field_wraparound (λ _, None) 8711 0%nat [1; 0; 2; 1; 0] 2
                                    [[1; 0; 2; 1; 0]]);
    [lia | reflexivity | symbols | simpl; lia | lia].
Defined.

(** C2 (the code departs from it): row 0 of the returned field is the
    caller's list itself, not a copy. On the store [[1; 0; 2]] the call
    returns a field whose first entry is location 0; after the caller sets
    [initial_condition[0] = 2], row 0 of that field reads [2; 0; 2]. *)
Theorem spacetime_field_row0_is_callers_list int_of_str :
  ∃ F h1 h2,
    three_state_spacetime_field int_of_str 0 0%nat (PyInt 1) [[1; 0; 2]]
    = Returned (F, h1)
    ∧ F !! 0%nat = Some 0%nat
    ∧ field_rows h1 F = [[1; 0; 2]; [0; 0; 0]]
    ∧ list_setitem 0%nat 0 2 h1 = Returned h2
    ∧ field_rows h2 F = [[2; 0; 2]; [0; 0; 0]].
Proof.
  exists [0; 2]%nat, [[1; 0; 2]; [1; 0; 2]; [0; 0; 0]],
         [[2; 0; 2]; [1; 0; 2]; [0; 0; 0]].
  repeat split; vm_compute; reflexivity.
Qed.

(** C4 (the code departs from it): a [time_steps] that is a string, whether
    it reads as a number or not, or that is [None], makes the call raise
    [TypeError]; the comparison [time_steps < 0] raises it before any
    conversion is tried. *)
Theorem spacetime_field_time_steps_TypeError int_of_str r (ic : loc) (s : string)
    (h : heap) :
  three_state_spacetime_field int_of_str r ic (PyStr s) h = Raised TypeError
  ∧ three_state_spacetime_field int_of_str r ic PyNone h = Raised TypeError.
Proof. split; reflexivity. Qed.

(** C10: a negative integer [time_steps] makes [evolve] raise the
    [ValueError] "time_steps must be a non-negative integer" and leaves the
    instance and the store exactly as they were. *)
Theorem evolve_negative_leaves_state int_of_str (self : three_state_CA) (h : heap)
    (z : Z) :
  z < 0 →
  evolve int_of_str (PyInt z) self h
  = (Raised (ValueError "time_steps must be a non-negative integer"), self, h).
Proof.
  intros Hz. unfold evolve. by rewrite check_time_steps_negative.
Qed.

Lemma evolve_negative_leaves_state_witness :
  evolve (λ _, None) (PyInt (-1))
         {| lookup_table := ∅; initial := 0%nat; spacetime := [0%nat];
            current_configuration := 1%nat; _length := 3 |}
         [[1; 0; 2]; [1; 0; 2]]
  = (Raised (ValueError "time_steps must be a non-negative integer"),
     {| lookup_table := ∅; initial := 0%nat; spacetime := [0%nat];
        current_configuration := 1%nat; _length := 3 |},
     [[1; 0; 2]; [1; 0; 2]]).
Proof. apply (evolve_negative_leaves_state (λ _, None)). lia. Defined.

(** C9: [evolve(a)] followed by [evolve(b)] on an instance leaves a field
    of [a + b + 1] rows, the same rows as a single [evolve(a + b)] on a fresh
    instance built from the same rule index and an equal initial
    configuration. *)
Theorem evolve_accumulates int_of_str r (h g : heap) (ic jc : loc) (config : list Z)
    (a b : Z) :
  0 ≤ r ≤ 19682 → h !! ic = Some config → g !! jc = Some config →
  Forall symbol config → 0 ≤ a → 0 ≤ b →
  ∃ ca0 h0 ca1 h1 ca2 h2 cb0 g0 cb1 g1,
    three_state_CA_init r ic h = Returned (ca0, h0)
    ∧ evolve int_of_str (PyInt a) ca0 h0 = (Returned (), ca1, h1)
    ∧ evolve int_of_str (PyInt b) ca1 h1 = (Returned (), ca2, h2)
    ∧ three_state_CA_init r jc g = Returned (cb0, g0)
    ∧ evolve int_of_str (PyInt (a + b)) cb0 g0 = (Returned (), cb1, g1)
    ∧ Z.of_nat (length (spacetime ca2)) = a + b + 1
    ∧ field_rows h2 (spacetime ca2) = field_rows g1 (spacetime cb1).
Proof.
  intros Hr Hic Hjc Hsym Ha Hb.
  destruct (evolve_twice_returns int_of_str r ic config h a b)
    as (ca0 & h0 & ca1 & h1 & ca2 & h2 & Hi & He1 & He2 & Hn & Hrows); try done.
  destruct (evolve_twice_returns int_of_str r jc config g (a + b) 0)
    as (cb0 & g0 & cb1 & g1 & cb2 & g2 & Hi' & He1' & He2' & _ & Hrows');
    try done; [lia|].
  assert (cb2 = cb1 ∧ g2 = g1) as [-> ->].
  { unfold evolve in He2'. simpl in He2'. by injection He2' as <- <-. }
  exists ca0, h0, ca1, h1, ca2, h2, cb0, g0, cb1, g1.
  do 5 (split; [done|]). split; [done|].
  rewrite Hrows, Hrows'. do 2 f_equal.
  rewrite Z2Nat.inj_add by lia. simpl. lia.
Qed.

Lemma evolve_accumulates_witness :
  ∃ ca0 h0 ca1 h1 ca2 h2 cb0 g0 cb1 g1,
    three_state_CA_init 8711 0%nat [[1; 0; 2; 1; 0]] = Returned (ca0, h0)
    ∧ evolve (λ _, None) (PyInt 1) ca0 h0 = (Returned (), ca1, h1)
    ∧ evolve (λ _, None) (PyInt 2) ca1 h1 = (Returned (), ca2, h2)
    ∧ three_state_CA_init 8711 1%nat [[2; 2]; [1; 0; 2; 1; 0]] = Returned (cb0, g0)
    ∧ evolve (λ _, None) (PyInt (1 + 2)) cb0 g0 = (Returned (), cb1, g1)
    ∧ Z.of_nat (length (spacetime ca2)) = 1 + 2 + 1
    ∧ field_rows h2 (spacetime ca2) = field_rows g1 (spacetime cb1).
Proof.
  apply (evolve_accumulates (λ _, None) 8711 [[1; 0; 2; 1; 0]]
                            [[2; 2]; [1; 0; 2; 1; 0]] 0%nat 1%nat [1; 0; 2; 1; 0] 1 2);
    [lia | reflexivity | reflexivity | symbols | lia | lia].
Defined.

(** * Further properties *)

(** ** The rule decoder: outcomes, entries and round trips *)

Lemma size_dict_of_nine {V} (d0 d1 d2 d3 d4 d5 d6 d7 d8 : V) :
  size (dict_of_pairs (zip neighborhoods [d0; d1; d2; d3; d4; d5; d6; d7; d8])) = 9%nat.
Proof. vm_compute. reflexivity. Qed.

Lemma read_dict_of_nine (d0 d1 d2 d3 d4 d5 d6 d7 d8 : Z) :
  (λ nb, dict_of_pairs (zip neighborhoods [d0; d1; d2; d3; d4; d5; d6; d7; d8]) !!! nb)
    <$> neighborhoods
  = [d0; d1; d2; d3; d4; d5; d6; d7; d8].
Proof. vm_compute. reflexivity. Qed.

Lemma lookup_table_returned_inv r t :
  three_state_lookup_table r = Returned t → 0 ≤ r ≤ 19682 ∧ t = digit_table r.
Proof.
  intros Ht. destruct (decide (0 ≤ r ≤ 19682)) as [Hr|Hr].
  - split; [done|]. rewrite three_state_lookup_table_digits in Ht by done.
    by injection Ht.
  - unfold three_state_lookup_table in Ht.
    rewrite bool_decide_eq_true_2 in Ht by lia. discriminate Ht.
Qed.

(** X1: the decoder raises its [ValueError] exactly on a rule number outside
    [0, 19682]; inside the range it returns, and no conversion of its own
    digits ever fails. *)
Theorem lookup_table_outcome r :
  three_state_lookup_table r
  = if bool_decide (0 ≤ r ≤ 19682)
    then Returned (digit_table r)
    else Raised (ValueError "rule_number must be an int between 0 and 19682, inclusive").
Proof.
  case_bool_decide as Hr.
  - by apply three_state_lookup_table_digits.
  - unfold three_state_lookup_table. by rewrite bool_decide_eq_true_2 by lia.
Qed.

(** X2: a returned table has exactly nine entries: each of the nine
    neighborhoods has an output in {0, 1, 2}, and no other key is present. *)
Theorem lookup_table_entries r t :
  three_state_lookup_table r = Returned t →
  size t = 9%nat
  ∧ ∀ nb, (nb ∈ neighborhoods → ∃ v, t !! nb = Some v ∧ symbol v)
          ∧ (nb ∉ neighborhoods → t !! nb = None).
Proof.
  intros Ht. apply lookup_table_returned_inv in Ht as [Hr ->]. split.
  - unfold digit_table.
    change (digit r <$> seq 0 9)
      with [digit r 0; digit r 1; digit r 2; digit r 3; digit r 4;
            digit r 5; digit r 6; digit r 7; digit r 8].
    apply size_dict_of_nine.
  - intros nb. split.
    + intros Hin. apply list_elem_of_lookup in Hin as [k Hk].
      exists (digit r k). split; [by apply digit_table_lookup | apply symbol_digit].
    + apply digit_table_lookup_None.
Qed.

Lemma lookup_table_entries_witness :
  size (digit_table 8711) = 9%nat
  ∧ ∀ nb, (nb ∈ neighborhoods → ∃ v, digit_table 8711 !! nb = Some v ∧ symbol v)
          ∧ (nb ∉ neighborhoods → digit_table 8711 !! nb = None).
Proof. apply (lookup_table_entries 8711). vm_compute. reflexivity. Defined.

Lemma rule_number_of_digits_bounds (ds : list Z) :
  Forall symbol ds → 0 ≤ rule_number_of_digits ds < 3 ^ Z.of_nat (length ds).
Proof.
  induction 1 as [|d ds Hd _ IH]; [simpl; lia|].
  apply symbol_cases in Hd.
  cbn [rule_number_of_digits foldr length].
  fold (rule_number_of_digits ds).
  rewrite Nat2Z.inj_succ, Z.pow_succ_r by lia. lia.
Qed.

Lemma digit_rule_number_of_digits (ds : list Z) :
  Forall symbol ds →
  ∀ (k : nat) x, ds !! k = Some x → digit (rule_number_of_digits ds) k = x.
Proof.
  induction 1 as [|d ds Hd Hds IH]; intros k x Hk; [discriminate Hk|].
  pose proof (rule_number_of_digits_bounds ds Hds) as Hb.
  apply symbol_cases in Hd.
  cbn [rule_number_of_digits foldr]. fold (rule_number_of_digits ds).
  destruct k as [|k].
  - injection Hk as <-. rewrite digit_0. Z.div_mod_to_equations. lia.
  - rewrite digit_S by lia.
    replace ((d + 3 * rule_number_of_digits ds) `div` 3)
      with (rule_number_of_digits ds) by (Z.div_mod_to_equations; lia).
    by apply IH.
Qed.

(** X3 (encode, then decode): nine digits in {0, 1, 2}, taken as the base-3
    digits of a number least significant first, give a rule number in range
    whose table answers the [k]-th neighborhood with the [k]-th digit. So
    every assignment of outputs to the nine neighborhoods is some rule's table. *)
Theorem digits_round_trip (ds : list Z) :
  length ds = 9%nat → Forall symbol ds →
  0 ≤ rule_number_of_digits ds ≤ 19682
  ∧ ∃ t, three_state_lookup_table (rule_number_of_digits ds) = Returned t
         ∧ ∀ (k : nat) nb, neighborhoods !! k = Some nb → t !! nb = ds !! k.
Proof.
  intros Hlen Hds.
  pose proof (rule_number_of_digits_bounds ds Hds) as Hb. rewrite Hlen in Hb.
  change (3 ^ Z.of_nat 9) with 19683 in Hb.
  split; [lia|]. exists (digit_table (rule_number_of_digits ds)).
  split; [apply three_state_lookup_table_digits; lia|].
  intros k nb Hk. rewrite (digit_table_lookup _ k nb Hk).
  assert (k < length ds)%nat as Hlt
    by (rewrite Hlen; apply lookup_lt_Some in Hk; exact Hk).
  destruct (lookup_lt_is_Some_2 ds k Hlt) as [x Hx].
  rewrite Hx. f_equal. by apply digit_rule_number_of_digits.
Qed.

Lemma digits_round_trip_witness :
  0 ≤ rule_number_of_digits [2; 2; 1; 1; 2; 2; 2; 0; 1] ≤ 19682
  ∧ ∃ t, three_state_lookup_table (rule_number_of_digits [2; 2; 1; 1; 2; 2; 2; 0; 1])
         = Returned t
         ∧ ∀ (k : nat) nb, neighborhoods !! k = Some nb →
                           t !! nb = [2; 2; 1; 1; 2; 2; 2; 0; 1] !! k.
Proof. apply (digits_round_trip [2; 2; 1; 1; 2; 2; 2; 0; 1]); [reflexivity | symbols]. Defined.

(** X4 (decode, then encode): reading a returned table in the order of
    [neighborhoods] and taking the outputs as base-3 digits, least significant
    first, gives back the rule number. *)
Theorem rule_number_from_table r t :
  three_state_lookup_table r = Returned t →
  rule_number_of_digits ((λ nb, t !!! nb) <$> neighborhoods) = r.
Proof.
  intros Ht. apply lookup_table_returned_inv in Ht as [Hr ->].
  unfold digit_table.
  change (digit r <$> seq 0 9)
    with [digit r 0; digit r 1; digit r 2; digit r 3; digit r 4;
          digit r 5; digit r 6; digit r 7; digit r 8].
  rewrite read_dict_of_nine. cbn [rule_number_of_digits foldr].
  pose proof (digits_sum r Hr). lia.
Qed.

Lemma rule_number_from_table_witness :
  rule_number_of_digits ((λ nb, digit_table 8711 !!! nb) <$> neighborhoods) = 8711.
Proof. apply (rule_number_from_table 8711). vm_compute. reflexivity. Defined.

(** ** The function: errors and their order *)

Lemma foldl_check_raised msg e (l : list Z) :
  foldl (λ (acc : result unit) (i : Z),
           _ ← acc;
           if bool_decide (i ∉ [0; 1; 2]) then Raised (ValueError msg) else mret ())
        (Raised e) l
  = Raised e.
Proof. induction l as [|x l IH]; [reflexivity | exact IH]. Qed.

Lemma check_symbols_raises msg (l : list Z) (x : Z) :
  x ∈ l → ¬ symbol x → check_symbols msg l = Raised (ValueError msg).
Proof.
  unfold check_symbols. intros Hin Hx.
  induction l as [|y l IH]; [by apply elem_of_nil in Hin|].
  cbn [foldl mbind result_bind].
  destruct (decide (symbol y)) as [Hy|Hy].
  - rewrite bool_decide_eq_false_2 by (intros Hn; by apply Hn).
    apply IH. apply elem_of_cons in Hin as [->|Hin]; [contradiction | done].
  - rewrite bool_decide_eq_true_2 by exact Hy. apply foldl_check_raised.
Qed.

(** X5: a negative integer [time_steps] makes the function raise the
    time_steps [ValueError] whatever the other arguments are: that check comes
    first, before the cells and the rule number are looked at. *)
Theorem spacetime_field_negative_first int_of_str r (ic : loc) (n : Z) (h : heap) :
  n < 0 →
  three_state_spacetime_field int_of_str r ic (PyInt n) h
  = Raised (ValueError "time_steps must be a non-negative integer").
Proof.
  intros Hn. unfold three_state_spacetime_field.
  by rewrite check_time_steps_negative.
Qed.

Lemma spacetime_field_negative_first_witness :
  three_state_spacetime_field (λ _, None) 19683 0%nat (PyInt (-1)) [[0; 1; 3]]
  = Raised (ValueError "time_steps must be a non-negative integer").
Proof. apply (spacetime_field_negative_first (λ _, None)). lia. Defined.

(** X6: with a non-negative integer [time_steps], an initial condition that
    holds a cell outside {0, 1, 2} makes the function raise the
    initial-condition [ValueError], also when the rule number is out of
    range: the cells are checked before the table is built. *)
Theorem spacetime_field_invalid_symbol int_of_str r (ic : loc) (config : list Z)
    (x n : Z) (h : heap) :
  h !! ic = Some config → x ∈ config → ¬ symbol x → 0 ≤ n →
  three_state_spacetime_field int_of_str r ic (PyInt n) h
  = Raised (ValueError "initial condition must be a list of 0s, 1s and 2s").
Proof.
  intros Hic Hin Hx Hn. unfold three_state_spacetime_field.
  rewrite check_time_steps_int by done. cbn [mbind result_bind].
  rewrite (list_lookup_total_correct _ _ _ Hic).
  by rewrite (check_symbols_raises _ config x).
Qed.

Lemma spacetime_field_invalid_symbol_witness :
  three_state_spacetime_field (λ _, None) 19683 0%nat (PyInt 1) [[0; 1; 3]]
  = Raised (ValueError "initial condition must be a list of 0s, 1s and 2s").
Proof.
  apply (spacetime_field_invalid_symbol (λ _, None) 19683 0%nat [0; 1; 3] 3 1);
    [reflexivity | | rewrite symbol_cases; lia | lia].
  apply (list_elem_of_lookup_2 _ 2%nat). reflexivity.
Defined.

(** X7: with a non-negative integer [time_steps] and cells all in
    {0, 1, 2}, a rule number outside [0, 19682] makes the function raise the
    decoder's [ValueError]. *)
Theorem spacetime_field_rule_out_of_range int_of_str r (ic : loc) (config : list Z)
    (n : Z) (h : heap) :
  h !! ic = Some config → Forall symbol config → 0 ≤ n → ¬ 0 ≤ r ≤ 19682 →
  three_state_spacetime_field int_of_str r ic (PyInt n) h
  = Raised (ValueError "rule_number must be an int between 0 and 19682, inclusive").
Proof.
  intros Hic Hsym Hn Hr. unfold three_state_spacetime_field.
  rewrite check_time_steps_int by done. cbn [mbind result_bind].
  rewrite (list_lookup_total_correct _ _ _ Hic).
  rewrite check_symbols_ok by done. cbn [mbind result_bind].
  rewrite lookup_table_outcome. by rewrite bool_decide_eq_false_2 by done.
Qed.

Lemma spacetime_field_rule_out_of_range_witness :
  three_state_spacetime_field (λ _, None) 19683 0%nat (PyInt 1) [[0; 1; 2]]
  = Raised (ValueError "rule_number must be an int between 0 and 19682, inclusive").
Proof.
  apply (spacetime_field_rule_out_of_range (λ _, None) 19683 0%nat [0; 1; 2] 1);
    [reflexivity | symbols | lia | lia].
Defined.

(** ** The function and the store *)



Lemma list_setitem_inv (l : loc) (k v : Z) (h h' : heap) :
  list_setitem l k v h = Returned h' → ∃ row, h' = <[l := row]> h.
Proof.
  unfold list_setitem. cbv zeta. case_bool_decide; [|discriminate].
  intros [= <-]. by eexists.
Qed.

(** X9: after a successful call, an assignment by the caller to a cell of
    its own list leaves rows 1, 2, ... of the returned field as they were:
    only row 0 is shared with the caller. *)
Theorem spacetime_field_later_rows_isolated int_of_str r (ic : loc) (config : list Z)
    (n : Z) (h : heap) :
  0 ≤ r ≤ 19682 → h !! ic = Some config → Forall symbol config → 0 ≤ n →
  ∃ F h',
    three_state_spacetime_field int_of_str r ic (PyInt n) h = Returned (F, h')
    ∧ ∀ (k v : Z) (h'' : heap),
        list_setitem ic k v h' = Returned h'' →
        tail (field_rows h'' F) = tail (field_rows h' F).
Proof.
  intros Hr Hic Hsym Hn. eexists _, _.
  split; [by apply three_state_spacetime_field_returns|].
  intros k v h'' Hset. apply list_setitem_inv in Hset as [row ->].
  unfold field_rows. cbn [fmap list_fmap tail].
  apply Forall_fmap_ext_1, Forall_forall. intros l Hl. apply elem_of_seq in Hl.
  apply lookup_lt_Some in Hic.
  apply list_lookup_total_insert_ne. lia.
Qed.

Lemma spacetime_field_later_rows_isolated_witness :
  ∃ F h',
    three_state_spacetime_field (λ _, None) 8711 0%nat (PyInt 2) [[1; 0; 2; 1; 0]]
    = Returned (F, h')
    ∧ ∀ (k v : Z) (h'' : heap),
        list_setitem 0%nat k v h' = Returned h'' →
        tail (field_rows h'' F) = tail (field_rows h' F).
Proof.
  apply (spacetime_field_later_rows_isolated (λ _, None) 8711 0%nat [1; 0; 2; 1; 0] 2
                                             [[1; 0; 2; 1; 0]]);
    [lia | reflexivity | symbols | lia].
Defined.

(** ** The function: edge cases and how runs relate *)

Lemma iterates_nil tbl (k : nat) : iterates tbl [] k = replicate k [].
Proof. induction k as [|k IH]; [reflexivity|]. simpl. by rewrite <- IH. Qed.

(** X10: an empty initial condition is accepted; the field is [n + 1] empty
    rows. *)
Theorem spacetime_field_empty int_of_str r (ic : loc) (n : Z) (h : heap) :
  0 ≤ r ≤ 19682 → h !! ic = Some [] → 0 ≤ n →
  ∃ F h',
    three_state_spacetime_field int_of_str r ic (PyInt n) h = Returned (F, h')
    ∧ field_rows h' F = replicate (Z.to_nat (n + 1)) [].
Proof.
  intros Hr Hic Hn. eexists _, _.
  split; [by apply three_state_spacetime_field_returns|].
  rewrite field_rows_returned by done. rewrite iterates_nil.
  by replace (Z.to_nat (n + 1)) with (S (Z.to_nat n)) by lia.
Qed.

Lemma spacetime_field_empty_witness :
  ∃ F h',
    three_state_spacetime_field (λ _, None) 8711 0%nat (PyInt 3) [[]] = Returned (F, h')
    ∧ field_rows h' F = replicate (Z.to_nat (3 + 1)) [].
Proof.
  apply (spacetime_field_empty (λ _, None) 8711 0%nat 3 [[]]);
    [lia | reflexivity | lia].
Defined.

(** X11: running longer only adds rows: the field of [n] steps is the
    beginning of the field of [n + m] steps from the same rule and an equal
    initial condition. *)
Theorem spacetime_field_prefix int_of_str r (h g : heap) (ic jc : loc)
    (config : list Z) (n m : Z) :
  0 ≤ r ≤ 19682 → h !! ic = Some config → g !! jc = Some config →
  Forall symbol config → 0 ≤ n → 0 ≤ m →
  ∃ F h' G g',
    three_state_spacetime_field int_of_str r ic (PyInt n) h = Returned (F, h')
    ∧ three_state_spacetime_field int_of_str r jc (PyInt (n + m)) g = Returned (G, g')
    ∧ field_rows h' F `prefix_of` field_rows g' G.
Proof.
  intros Hr Hic Hjc Hsym Hn Hm. eexists _, _, _, _.
  split; [by apply three_state_spacetime_field_returns|].
  split; [apply three_state_spacetime_field_returns; (done || lia)|].
  rewrite !field_rows_returned by done.
  rewrite Z2Nat.inj_add, iterates_add by lia.
  apply prefix_cons. by eexists.
Qed.

Lemma spacetime_field_prefix_witness :
  ∃ F h' G g',
    three_state_spacetime_field (λ _, None) 8711 0%nat (PyInt 1) [[1; 0; 2; 1; 0]]
    = Returned (F, h')
    ∧ three_state_spacetime_field (λ _, None) 8711 1%nat (PyInt (1 + 2))
                                  [[2]; [1; 0; 2; 1; 0]]
      = Returned (G, g')
    ∧ field_rows h' F `prefix_of` field_rows g' G.
Proof.
  apply (spacetime_field_prefix (λ _, None) 8711 [[1; 0; 2; 1; 0]]
                                [[2]; [1; 0; 2; 1; 0]] 0%nat 1%nat [1; 0; 2; 1; 0] 1 2);
    [lia | reflexivity | reflexivity | symbols | lia | lia].
Defined.

(** *** Rotating the ring of cells *)

Lemma rotate_lookup_total (row : list Z) (k i : nat) :
  (i < length row)%nat →
  rotate k row !!! i
  = row !!! Z.to_nat ((Z.of_nat k + Z.of_nat i) `mod` Z.of_nat (length row)).
Proof.
  intros Hi. rewrite !list_lookup_total_alt. by rewrite lookup_rotate_r.
Qed.

Lemma next_row_rotate tbl (row : list Z) (k : nat) :
  next_row tbl (rotate k row) = rotate k (next_row tbl row).
Proof.
  apply list_eq. intros i.
  destruct (decide (i < length row)%nat) as [Hi|Hi].
  - rewrite next_row_lookup by (by rewrite length_rotate).
    rewrite lookup_rotate_r by (by rewrite length_next_row).
    rewrite length_next_row.
    pose proof (rotate_nat_add_lt k i (length row)) as Hj.
    rewrite next_row_lookup by lia. f_equal.
    unfold next_cell. rewrite length_rotate.
    pose proof (wrap_index_lt (length row) i Hi) as Hw.
    rewrite !rotate_lookup_total by done.
    unfold rotate_nat_add.
    pose proof (Z.mod_pos_bound (Z.of_nat i - 1) (Z.of_nat (length row))) as Hb1.
    pose proof (Z.mod_pos_bound (Z.of_nat k + Z.of_nat i) (Z.of_nat (length row))) as Hb2.
    rewrite !Z2Nat.id by lia.
    by rewrite Zplus_mod_idemp_r, Zminus_mod_idemp_l, Z.add_sub_assoc.
  - rewrite !lookup_ge_None_2; [done | |].
    + rewrite length_rotate, length_next_row. lia.
    + rewrite length_next_row, length_rotate. lia.
Qed.

Lemma iterates_rotate tbl (k n : nat) : ∀ row : list Z,
  iterates tbl (rotate k row) n = rotate k <$> iterates tbl row n.
Proof.
  induction n as [|n IH]; intros row; [reflexivity|].
  cbn [iterates fmap list_fmap]. rewrite next_row_rotate. f_equal. apply IH.
Qed.

(** X12: the update has no preferred cell: started from the initial
    condition rotated by [k] places, the function produces the field of the
    unrotated one with every row rotated by [k] places. *)
Theorem spacetime_field_rotation int_of_str r (h g : heap) (ic jc : loc)
    (config : list Z) (k : nat) (n : Z) :
  0 ≤ r ≤ 19682 → h !! ic = Some config → g !! jc = Some (rotate k config) →
  Forall symbol config → 0 ≤ n →
  ∃ F h' G g',
    three_state_spacetime_field int_of_str r ic (PyInt n) h = Returned (F, h')
    ∧ three_state_spacetime_field int_of_str r jc (PyInt n) g = Returned (G, g')
    ∧ field_rows g' G = rotate k <$> field_rows h' F.
Proof.
  intros Hr Hic Hjc Hsym Hn. eexists _, _, _, _.
  split; [by apply three_state_spacetime_field_returns|].
  split.
  - apply three_state_spacetime_field_returns; try done.
    apply Forall_forall. intros x Hx. apply elem_of_rotate in Hx.
    by eapply Forall_forall in Hsym.
  - rewrite !field_rows_returned by done.
    cbn [fmap list_fmap]. by rewrite iterates_rotate.
Qed.

Lemma spacetime_field_rotation_witness :
  ∃ F h' G g',
    three_state_spacetime_field (λ _, None) 8711 0%nat (PyInt 2) [[1; 0; 2; 1; 0]]
    = Returned (F, h')
    ∧ three_state_spacetime_field (λ _, None) 8711 0%nat (PyInt 2) [[2; 1; 0; 1; 0]]
      = Returned (G, g')
    ∧ field_rows g' G = rotate 2 <$> field_rows h' F.
Proof.
  apply (spacetime_field_rotation (λ _, None) 8711 [[1; 0; 2; 1; 0]]
                                  [[2; 1; 0; 1; 0]] 0%nat 0%nat [1; 0; 2; 1; 0] 2 2);
    [lia | reflexivity | reflexivity | symbols | lia].
Defined.

(** ** The first implementation *)

Lemma spaghetti_new_configuration_loop_agree tS tF :
  (∀ nb, spaghetti_output tS nb = dict_getitem tF nb) →
  ∀ (row indices acc : list Z),
    spaghetti_new_configuration_loop tS row indices acc
    = new_configuration_loop tF row indices acc.
Proof.
  intros Hagree row indices.
  induction indices as [|i indices IH]; intros acc; [reflexivity|].
  cbn [spaghetti_new_configuration_loop new_configuration_loop].
  destruct (list_getitem row (i - 1)) as [a|e]; [|reflexivity].
  destruct (list_getitem row i) as [b|e]; [|reflexivity].
  cbn [mbind result_bind]. rewrite Hagree.
  destruct (dict_getitem tF (a, b)) as [v|e]; [|reflexivity].
  cbn [mbind result_bind]. apply IH.
Qed.

Lemma spaghetti_time_loop_spec tS tF (steps : nat) :
  (∀ nb, spaghetti_output tS nb = dict_getitem tF nb) → table_total tF →
  ∀ (cur : loc) (row : list Z) (F : list loc) (h : heap),
    h !! cur = Some row → Forall symbol row →
    spaghetti_time_loop tS steps cur F h
    = Returned (F ++ seq (length h) steps, h ++ iterates tF row steps).
Proof.
  intros Hagree Htbl. induction steps as [|steps IH]; intros cur row F h Hcur Hrow.
  - simpl. by rewrite !app_nil_r.
  - cbn [spaghetti_time_loop iterates].
    rewrite (list_lookup_total_correct _ _ _ Hcur).
    rewrite (spaghetti_new_configuration_loop_agree tS tF Hagree).
    rewrite new_configuration_loop_next_row by done.
    cbn [mbind result_bind alloc].
    rewrite (IH (length h) (next_row tF row)).
    + rewrite length_app, <- !app_assoc. cbn [length app].
      by replace (length h + 1)%nat with (S (length h)) by lia.
    + rewrite lookup_app_r by lia. by rewrite Nat.sub_diag.
    + by apply next_row_symbols.
Qed.

(** X13: on a rule number in [0, 19682], cells in {0, 1, 2} and a
    non-negative [time], the first implementation (table, copy and loops of
    the script) returns exactly what [three_state_spacetime_field] returns:
    the same field and the same store. *)
Theorem spaghetti_matches_function int_of_str r (ic : loc) (config : list Z)
    (time : Z) (h : heap) :
  0 ≤ r ≤ 19682 → h !! ic = Some config → Forall symbol config → 0 ≤ time →
  spaghetti_spacetime_field r ic time h
  = three_state_spacetime_field int_of_str r ic (PyInt time) h.
Proof.
  intros Hr Hic Hsym Ht.
  rewrite (three_state_spacetime_field_returns int_of_str r ic config time h) by done.
  unfold spaghetti_spacetime_field.
  destruct (decoders_agree_in_range r Hr) as (tS & tF & HS & HF & Hagree).
  rewrite three_state_lookup_table_digits in HF by done. injection HF as <-.
  rewrite HS. cbn [mbind result_bind alloc].
  rewrite (list_lookup_total_correct _ _ _ Hic).
  rewrite (spaghetti_time_loop_spec tS (digit_table r) _ Hagree (digit_table_total r)
                                    (length h) config).
  - rewrite length_app, <- app_assoc. cbn [length app].
    by replace (length h + 1)%nat with (S (length h)) by lia.
  - rewrite lookup_app_r by lia. by rewrite Nat.sub_diag.
  - done.
Qed.

Lemma spaghetti_matches_function_witness :
  spaghetti_spacetime_field 8711 0%nat 2 [[1; 0; 2; 1; 0]]
  = three_state_spacetime_field (λ _, None) 8711 0%nat (PyInt 2) [[1; 0; 2; 1; 0]].
Proof.
  apply (spaghetti_matches_function (λ _, None) 8711 0%nat [1; 0; 2; 1; 0] 2
                                    [[1; 0; 2; 1; 0]]);
    [lia | reflexivity | symbols | lia].
Defined.

(** *** Its table on any rule number *)

Lemma list_getitem_app_l {A} (l rest : list A) (i : Z) :
  0 ≤ i < Z.of_nat (length l) → list_getitem (l ++ rest) i = list_getitem l i.
Proof.
  intros Hi. unfold list_getitem. cbv zeta.
  rewrite !(bool_decide_eq_false_2 (i < 0)) by lia.
  rewrite !bool_decide_eq_true_2 by (rewrite ?length_app; lia).
  by rewrite lookup_app_l by lia.
Qed.

Lemma foldl_ext_in {A B} (f g : A → B → A) (l : list B) :
  (∀ a x, x ∈ l → f a x = g a x) → ∀ a, foldl f a l = foldl g a l.
Proof.
  induction l as [|x l IH]; intros Hfg a; [reflexivity|].
  cbn [foldl]. rewrite Hfg by apply list_elem_of_here.
  apply IH. intros a' y Hy. apply Hfg. by apply list_elem_of_further.
Qed.

Lemma spaghetti_chars_any r :
  0 ≤ r →
  let in_ternary := str_join (ternary_loop r []) in
  let ternary_length := Z.of_nat (String.length in_ternary) in
  ∃ rest,
    list_ascii_of_string
      (if bool_decide (ternary_length ≠ 9)
       then in_ternary +:+ zeros (9 - ternary_length) else in_ternary)
    = decoded_chars r ++ rest.
Proof.
  intros Hr. cbv zeta.
  destruct (ternary_loop_digits (Z.to_nat r) r []) as (k & _ & Hloop & Hz).
  { split; [lia|]. rewrite Z2Nat.id by lia. apply Z.pow_gt_lin_r; lia. }
  simpl in Hloop. rewrite Hloop.
  rewrite (list_fmap_compose (λ j, digit_char (digit r j)) (λ c, String c "")).
  rewrite string_length_chars, str_join_singletons, length_fmap, length_seq.
  destruct (decide (k ≤ 9)%nat) as [Hk|Hk].
  - exists []. rewrite app_nil_r.
    assert (((λ j, digit_char (digit r j)) <$> seq 0 k) ++ replicate (9 - k) "0"%char
            = decoded_chars r) as Hpad.
    { unfold decoded_chars. replace 9%nat with (k + (9 - k))%nat at 2 by lia.
      rewrite seq_app, fmap_app. f_equal. symmetry. by apply digit_chars_zero. }
    case_bool_decide as Hlen.
    + rewrite list_ascii_of_string_app, list_ascii_of_zeros, str_join_singletons.
      by replace (Z.to_nat (9 - Z.of_nat k)) with (9 - k)%nat by lia.
    + rewrite str_join_singletons. rewrite <- Hpad.
      replace (9 - k)%nat with 0%nat by lia. by rewrite app_nil_r.
  - exists ((λ j, digit_char (digit r j)) <$> seq 9 (k - 9)).
    rewrite bool_decide_eq_true_2 by lia.
    rewrite list_ascii_of_string_app, list_ascii_of_zeros, str_join_singletons.
    replace (Z.to_nat (9 - Z.of_nat k)) with 0%nat by lia.
    cbn [replicate]. rewrite app_nil_r. unfold decoded_chars.
    rewrite <- fmap_app. f_equal.
    replace k with (9 + (k - 9))%nat at 1 by lia. by rewrite seq_app.
Qed.

Lemma spaghetti_lookup_table_nonneg r :
  0 ≤ r → spaghetti_lookup_table r = Returned (digit_char <$> digit_table r).
Proof.
  intros Hr. unfold spaghetti_lookup_table, str_getitem. cbv zeta.
  destruct (spaghetti_chars_any r Hr) as [rest Hchars]. cbv zeta in Hchars.
  rewrite Hchars. unfold decoded_chars, digit_table.
  change (digit r <$> seq 0 9)
    with [digit r 0; digit r 1; digit r 2; digit r 3; digit r 4;
          digit r 5; digit r 6; digit r 7; digit r 8].
  rewrite fmap_dict_of_nine, <- spaghetti_fold_nine.
  apply foldl_ext_in. intros acc i Hi. apply elem_of_seqZ in Hi.
  rewrite list_getitem_app_l; [reflexivity | simpl; lia].
Qed.

Lemma digit_mod_19683 r (k : nat) :
  0 ≤ r → (k < 9)%nat → digit (r `mod` 19683) k = digit r k.
Proof.
  intros Hr Hk. unfold digit.
  do 9 (destruct k as [|k];
        [simpl Z.of_nat;
         first [ change (3 ^ 0) with 1 | change (3 ^ 1) with 3 | change (3 ^ 2) with 9
               | change (3 ^ 3) with 27 | change (3 ^ 4) with 81
               | change (3 ^ 5) with 243 | change (3 ^ 6) with 729
               | change (3 ^ 7) with 2187 | change (3 ^ 8) with 6561 ];
         Z.div_mod_to_equations; lia|]).
  lia.
Qed.

(** X14: the first implementation checks nothing when it builds its table,
    and always gets one: a rule number of 19683 or more gives the table of its
    remainder modulo 19683 (its nine low digits), a negative one the table of
    rule 0. *)
Theorem spaghetti_lookup_table_any r :
  ∃ t, spaghetti_lookup_table r = Returned t
       ∧ spaghetti_lookup_table (Z.max 0 r `mod` 19683) = Returned t.
Proof.
  destruct (decide (0 ≤ r)) as [Hr|Hr].
  - exists (digit_char <$> digit_table r).
    split; [by apply spaghetti_lookup_table_nonneg|].
    rewrite Z.max_r by lia.
    rewrite spaghetti_lookup_table_nonneg by (apply Z.mod_pos_bound; lia).
    do 2 f_equal. unfold digit_table. do 2 f_equal.
    apply list_fmap_ext. intros i k Hk.
    apply list_elem_of_lookup_2, elem_of_seq in Hk.
    apply digit_mod_19683; lia.
  - exists (digit_char <$> digit_table 0).
    rewrite Z.max_l by lia. change (0 `mod` 19683) with 0.
    split; [|by apply spaghetti_lookup_table_nonneg].
    rewrite <- (spaghetti_lookup_table_nonneg 0) by lia.
    unfold spaghetti_lookup_table. by rewrite !ternary_loop_done by lia.
Qed.

(** ** The class: errors of the constructor *)

(** X15: the constructor raises its own initial-condition [ValueError] (the
    message has a comma the function's has not) when a cell is outside
    {0, 1, 2}, also on a rule number out of range: the cells are checked first. *)
Theorem init_invalid_symbol r (ic : loc) (config : list Z) (x : Z) (h : heap) :
  h !! ic = Some config → x ∈ config → ¬ symbol x →
  three_state_CA_init r ic h
  = Raised (ValueError "initial condition must be a list of 0s, 1s, and 2s").
Proof.
  intros Hic Hin Hx. unfold three_state_CA_init.
  rewrite (list_lookup_total_correct _ _ _ Hic).
  by rewrite (check_symbols_raises _ config x).
Qed.

Lemma init_invalid_symbol_witness :
  three_state_CA_init 19683 0%nat [[0; 1; 3]]
  = Raised (ValueError "initial condition must be a list of 0s, 1s, and 2s").
Proof.
  apply (init_invalid_symbol 19683 0%nat [0; 1; 3] 3);
    [reflexivity | | rewrite symbol_cases; lia].
  apply (list_elem_of_lookup_2 _ 2%nat). reflexivity.
Defined.

(** X16: with cells all in {0, 1, 2}, the constructor raises the decoder's
    [ValueError] on a rule number outside [0, 19682]. *)
Theorem init_rule_out_of_range r (ic : loc) (config : list Z) (h : heap) :
  h !! ic = Some config → Forall symbol config → ¬ 0 ≤ r ≤ 19682 →
  three_state_CA_init r ic h
  = Raised (ValueError "rule_number must be an int between 0 and 19682, inclusive").
Proof.
  intros Hic Hsym Hr. unfold three_state_CA_init.
  rewrite (list_lookup_total_correct _ _ _ Hic).
  rewrite check_symbols_ok by done. cbn [mbind result_bind].
  rewrite lookup_table_outcome. by rewrite bool_decide_eq_false_2 by done.
Qed.

Lemma init_rule_out_of_range_witness :
  three_state_CA_init (-1) 0%nat [[0; 1; 2]]
  = Raised (ValueError "rule_number must be an int between 0 and 19682, inclusive").
Proof.
  apply (init_rule_out_of_range (-1) 0%nat [0; 1; 2]);
    [reflexivity | symbols | lia].
Defined.

(** ** The class: what an instance keeps true *)

Lemma length_field_rows (h : heap) (F : list loc) : length (field_rows h F) = length F.
Proof. unfold field_rows. apply length_fmap. Qed.

(** X17: the constructor leaves the store as it was but for one new list,
    the copy, and makes an instance in the state [ca_invariant] describes with
    no step taken: one row, which reads the initial condition, and a
    [current_configuration] with the same cells. *)
Theorem init_establishes_invariant r (ic : loc) (config : list Z) (h : heap) :
  0 ≤ r ≤ 19682 → h !! ic = Some config → Forall symbol config →
  ∃ ca0,
    three_state_CA_init r ic h = Returned (ca0, h ++ [config])
    ∧ ca_invariant (digit_table r) config 0 ca0 (h ++ [config])
    ∧ current_configuration ca0 ≠ ic.
Proof.
  intros Hr Hic Hsym. eexists.
  split; [by apply three_state_CA_init_returns|].
  pose proof (lookup_lt_Some _ _ _ Hic) as Hlt.
  split; [|cbn [current_configuration]; lia].
  unfold ca_invariant. cbn [lookup_table _length current_configuration spacetime].
  split; [done|]. split; [done|]. split.
  - cbn [Nat.iter nat_rect]. rewrite lookup_app_r by lia. by rewrite Nat.sub_diag.
  - split.
    + unfold field_rows. cbn [fmap list_fmap iterates]. f_equal.
      apply list_lookup_total_correct. by apply lookup_app_l_Some.
    + constructor; [rewrite length_app; lia | constructor].
Qed.

Lemma init_establishes_invariant_witness :
  ∃ ca0,
    three_state_CA_init 8711 0%nat [[1; 0; 2; 1; 0]]
    = Returned (ca0, [[1; 0; 2; 1; 0]] ++ [[1; 0; 2; 1; 0]])
    ∧ ca_invariant (digit_table 8711) [1; 0; 2; 1; 0] 0 ca0
                   ([[1; 0; 2; 1; 0]] ++ [[1; 0; 2; 1; 0]])
    ∧ current_configuration ca0 ≠ 0%nat.
Proof.
  apply (init_establishes_invariant 8711 0%nat [1; 0; 2; 1; 0] [[1; 0; 2; 1; 0]]);
    [lia | reflexivity | symbols].
Defined.

(** X18: [evolve] with a non-negative integer [n] keeps that state and
    moves it [n] steps on; it only appends: the store and the field it leaves
    begin with the store and the field it found. *)
Theorem evolve_preserves_invariant int_of_str tbl (config : list Z) (N : nat)
    (self : three_state_CA) (h : heap) (n : Z) :
  table_total tbl → Forall symbol config → ca_invariant tbl config N self h → 0 ≤ n →
  ∃ self' h',
    evolve int_of_str (PyInt n) self h = (Returned (), self', h')
    ∧ ca_invariant tbl config (N + Z.to_nat n) self' h'
    ∧ h `prefix_of` h'
    ∧ spacetime self `prefix_of` spacetime self'.
Proof.
  intros Htbl Hsym (Ht & Hlen & Hcur & Hrows & Hlocs) Hn.
  destruct (iter_next_row_symbols tbl config N Htbl Hsym) as [HsymN HlenN].
  destruct (evolve_loop_spec (Z.to_nat n) self h (Nat.iter N (next_row tbl) config))
    as (self' & Hrun & Ht' & Hlen' & Hst & Hcur').
  { by rewrite Ht. }
  { exact Hcur. }
  { exact HsymN. }
  { by rewrite Hlen, HlenN. }
  rewrite Ht in Hrun, Hcur'.
  eexists self', _. split.
  { unfold evolve. rewrite check_time_steps_int by done. exact Hrun. }
  split; [|split; [by eexists | rewrite Hst; by eexists]].
  unfold ca_invariant.
  split; [congruence|]. split; [congruence|]. split.
  - rewrite Hcur'. f_equal. by rewrite Nat.add_comm, Nat.iter_add.
  - split.
    + rewrite Hst, field_rows_app, field_rows_grow by done. rewrite Hrows.
      pose proof (field_rows_new h (iterates tbl (Nat.iter N (next_row tbl) config)
                                             (Z.to_nat n))) as Hnew.
      rewrite length_iterates in Hnew. rewrite Hnew.
      by rewrite iterates_add.
    + rewrite Hst. apply Forall_app. split.
      * eapply Forall_impl; [exact Hlocs|]. intros l Hl. cbv beta in *.
        rewrite length_app. lia.
      * apply Forall_forall. intros l Hl. apply elem_of_seq in Hl.
        rewrite length_app, length_iterates. lia.
Qed.

Lemma evolve_preserves_invariant_witness :
  ∃ self' h',
    evolve (λ _, None) (PyInt 2)
           {| lookup_table := digit_table 8711; initial := 0%nat; spacetime := [0%nat];
              current_configuration := 1%nat; _length := 3 |}
           [[1; 0; 2]; [1; 0; 2]]
    = (Returned (), self', h')
    ∧ ca_invariant (digit_table 8711) [1; 0; 2] (0 + Z.to_nat 2) self' h'
    ∧ [[1; 0; 2]; [1; 0; 2]] `prefix_of` h'
    ∧ [0%nat] `prefix_of` spacetime self'.
Proof.
  apply (evolve_preserves_invariant (λ _, None) (digit_table 8711) [1; 0; 2] 0);
    [apply digit_table_total | symbols | | lia].
  repeat split; try reflexivity. repeat constructor.
Defined.

Lemma evolve_each_invariant int_of_str tbl (config : list Z) :
  table_total tbl → Forall symbol config →
  ∀ (ns : list Z) (N : nat) (self : three_state_CA) (h : heap),
    Forall (λ n, 0 ≤ n) ns → ca_invariant tbl config N self h →
    ∃ self' h',
      evolve_each int_of_str ns self h = (Returned (), self', h')
      ∧ ca_invariant tbl config (N + Z.to_nat (foldr Z.add 0 ns)) self' h'.
Proof.
  intros Htbl Hsym ns. induction ns as [|n ns IH]; intros N self h Hns Hinv.
  - exists self, h. split; [reflexivity|]. simpl. by rewrite Nat.add_0_r.
  - apply Forall_cons in Hns as [Hn Hns].
    destruct (evolve_preserves_invariant int_of_str tbl config N self h n)
      as (self1 & h1 & Hrun & Hinv1 & _); try done.
    destruct (IH (N + Z.to_nat n)%nat self1 h1 Hns Hinv1) as (self' & h' & Hrun' & Hinv').
    exists self', h'. cbn [evolve_each foldr]. rewrite Hrun. split; [exact Hrun'|].
    assert (0 ≤ foldr Z.add 0 ns) as Hsum.
    { clear -Hns. induction Hns as [|m ms Hm _ IHs]; simpl; lia. }
    rewrite Z2Nat.inj_add, Nat.add_assoc by lia. exact Hinv'.
Qed.

(** X19: any series of [evolve] calls with non-negative integers on a new
    instance leaves a field that reads, row for row, as the field the
    function returns for the sum of those integers, from the same rule
    number and an equal initial condition. *)
Theorem evolve_each_matches_function int_of_str r (h g : heap) (ic jc : loc)
    (config : list Z) (ns : list Z) :
  0 ≤ r ≤ 19682 → h !! ic = Some config → g !! jc = Some config →
  Forall symbol config → Forall (λ n, 0 ≤ n) ns →
  ∃ ca0 h0 ca h1 F g',
    three_state_CA_init r ic h = Returned (ca0, h0)
    ∧ evolve_each int_of_str ns ca0 h0 = (Returned (), ca, h1)
    ∧ three_state_spacetime_field int_of_str r jc (PyInt (foldr Z.add 0 ns)) g
      = Returned (F, g')
    ∧ field_rows h1 (spacetime ca) = field_rows g' F.
Proof.
  intros Hr Hic Hjc Hsym Hns.
  destruct (init_establishes_invariant r ic config h) as (ca0 & Hinit & Hinv & _);
    try done.
  destruct (evolve_each_invariant int_of_str (digit_table r) config
              (digit_table_total r) Hsym ns 0 ca0 _ Hns Hinv)
    as (ca & h1 & Hrun & (_ & _ & _ & Hrows & _)).
  assert (0 ≤ foldr Z.add 0 ns) as Hsum.
  { clear -Hns. induction Hns as [|m ms Hm _ IHs]; simpl; lia. }
  eexists ca0, _, ca, h1, _, _.
  split; [exact Hinit|]. split; [exact Hrun|].
  split; [by apply three_state_spacetime_field_returns|].
  rewrite Hrows. by rewrite field_rows_returned.
Qed.

Lemma evolve_each_matches_function_witness :
  ∃ ca0 h0 ca h1 F g',
    three_state_CA_init 8711 0%nat [[1; 0; 2; 1; 0]] = Returned (ca0, h0)
    ∧ evolve_each (λ _, None) [1; 0; 2] ca0 h0 = (Returned (), ca, h1)
    ∧ three_state_spacetime_field (λ _, None) 8711 1%nat
                                  (PyInt (foldr Z.add 0 [1; 0; 2]))
                                  [[2]; [1; 0; 2; 1; 0]]
      = Returned (F, g')
    ∧ field_rows h1 (spacetime ca) = field_rows g' F.
Proof.
  apply (evolve_each_matches_function (λ _, None) 8711 [[1; 0; 2; 1; 0]]
           [[2]; [1; 0; 2; 1; 0]] 0%nat 1%nat [1; 0; 2; 1; 0] [1; 0; 2]);
    [lia | reflexivity | reflexivity | symbols | repeat (constructor; [lia|]); constructor].
Defined.



(** X21: the copy the constructor takes shields the evolution from the
    caller: if the caller assigns to a cell of its list after the instance is
    made, [evolve] still computes the same later rows as without the
    assignment; only row 0, which is the caller's list, shows it. *)
Theorem init_copy_shields_evolution int_of_str r (ic : loc) (config : list Z)
    (n : Z) (h : heap) :
  0 ≤ r ≤ 19682 → h !! ic = Some config → Forall symbol config → 0 ≤ n →
  ∃ ca0 h0,
    three_state_CA_init r ic h = Returned (ca0, h0)
    ∧ ∀ (k v : Z) (h1 : heap),
        list_setitem ic k v h0 = Returned h1 →
        ∃ ca1 h2 ca1' h2',
          evolve int_of_str (PyInt n) ca0 h1 = (Returned (), ca1, h2)
          ∧ evolve int_of_str (PyInt n) ca0 h0 = (Returned (), ca1', h2')
          ∧ tail (field_rows h2 (spacetime ca1)) = tail (field_rows h2' (spacetime ca1'))
          ∧ field_rows h2 (spacetime ca1) !! 0%nat = Some (h1 !!! ic).
Proof.
  intros Hr Hic Hsym Hn. eexists _, _.
  split; [by apply three_state_CA_init_returns|].
  intros k v h1 Hset. apply list_setitem_inv in Hset as [row ->].
  pose proof (lookup_lt_Some _ _ _ Hic) as Hlt.
  set (ca0 := {| lookup_table := digit_table r; initial := ic; spacetime := [ic];
                 current_configuration := length h;
                 _length := Z.of_nat (length config) |}).
  set (its := iterates (digit_table r) config (Z.to_nat n)).
  destruct (evolve_loop_spec (Z.to_nat n) ca0 (<[ic := row]> (h ++ [config])) config)
    as (ca1 & Hrun1 & _ & _ & Hst1 & _).
  { apply digit_table_total. }
  { cbn [current_configuration ca0].
    rewrite list_lookup_insert_ne by lia.
    rewrite lookup_app_r by lia. by rewrite Nat.sub_diag. }
  { done. }
  { done. }
  destruct (evolve_loop_spec (Z.to_nat n) ca0 (h ++ [config]) config)
    as (ca1' & Hrun2 & _ & _ & Hst2 & _).
  { apply digit_table_total. }
  { cbn [current_configuration ca0].
    rewrite lookup_app_r by lia. by rewrite Nat.sub_diag. }
  { done. }
  { done. }
  cbn [lookup_table spacetime ca0] in Hrun1, Hst1, Hrun2, Hst2.
  fold its in Hrun1, Hrun2.
  eexists ca1, _, ca1', _.
  split; [unfold evolve; rewrite check_time_steps_int by done; exact Hrun1|].
  split; [unfold evolve; rewrite check_time_steps_int by done; exact Hrun2|].
  rewrite Hst1, Hst2. cbn [app]. unfold field_rows at 1 2 3.
  cbn [fmap list_fmap tail]. split.
  - pose proof (field_rows_new (<[ic := row]> (h ++ [config])) its) as H1.
    pose proof (field_rows_new (h ++ [config]) its) as H2.
    unfold its in H1 at 2. unfold its in H2 at 2.
    rewrite length_iterates in H1, H2. unfold field_rows in H1, H2.
    by rewrite H1, H2.
  - cbn [lookup list_lookup]. f_equal.
    apply lookup_total_app_l. rewrite length_insert, length_app. lia.
Qed.

Lemma init_copy_shields_evolution_witness :
  ∃ ca0 h0,
    three_state_CA_init 8711 0%nat [[1; 0; 2; 1; 0]] = Returned (ca0, h0)
    ∧ ∀ (k v : Z) (h1 : heap),
        list_setitem 0%nat k v h0 = Returned h1 →
        ∃ ca1 h2 ca1' h2',
          evolve (λ _, None) (PyInt 2) ca0 h1 = (Returned (), ca1, h2)
          ∧ evolve (λ _, None) (PyInt 2) ca0 h0 = (Returned (), ca1', h2')
          ∧ tail (field_rows h2 (spacetime ca1)) = tail (field_rows h2' (spacetime ca1'))
          ∧ field_rows h2 (spacetime ca1) !! 0%nat = Some (h1 !!! 0%nat).
Proof.
  apply (init_copy_shields_evolution (λ _, None) 8711 0%nat [1; 0; 2; 1; 0] 2
                                     [[1; 0; 2; 1; 0]]);
    [lia | reflexivity | symbols | lia].
Defined.

(** ** Random initial conditions and the scripts *)

(** X22: given a non-negative integer [length] and a random source whose
    draws are in {0, 1, 2}, [random_ternary_string] returns a list of exactly
    [length] cells, all in {0, 1, 2}, made of the next [length] draws in
    order: a list the function and the constructor accept. *)
Theorem random_ternary_string_valid (draws : nat → Z) (n : Z) (k : nat) :
  (∀ j, symbol (draws j)) → 0 ≤ n →
  ∃ l, random_ternary_string draws (PyInt n) k = Returned (l, (k + Z.to_nat n)%nat)
       ∧ Z.of_nat (length l) = n
       ∧ Forall symbol l
       ∧ ∀ i : nat, (i < length l)%nat → l !! i = Some (draws (k + i)%nat).
Proof.
  intros Hdraws Hn. exists (draws <$> seq k (Z.to_nat n)).
  split.
  { unfold random_ternary_string. cbn [isinstance_int negb py_lt].
    rewrite bool_decide_eq_false_2 by lia. reflexivity. }
  split; [rewrite length_fmap, length_seq; lia|]. split.
  - apply Forall_fmap, Forall_forall. intros j _. apply Hdraws.
  - intros i Hi. rewrite length_fmap, length_seq in Hi.
    by rewrite list_lookup_fmap, lookup_seq_lt.
Qed.

Lemma random_ternary_string_valid_witness :
  ∃ l, random_ternary_string (λ j, Z.of_nat j `mod` 3) (PyInt 5) 2
       = Returned (l, (2 + Z.to_nat 5)%nat)
       ∧ Z.of_nat (length l) = 5
       ∧ Forall symbol l
       ∧ ∀ i : nat, (i < length l)%nat → l !! i = Some (Z.of_nat (2 + i) `mod` 3).
Proof.
  apply (random_ternary_string_valid (λ j, Z.of_nat j `mod` 3) 5 2); [|lia].
  intros j. apply symbol_cases.
  pose proof (Z.mod_pos_bound (Z.of_nat j) 3). lia.
Defined.

(** X23: whatever it is given for [length], [random_ternary_string] either
    returns or raises its own [ValueError], never anything else: a string or
    [None] is turned down by the [isinstance] test before the comparison with
    0 could raise [TypeError]. *)
Theorem random_ternary_string_only_ValueError (draws : nat → Z) (v : pyval) (k : nat) :
  (∃ l k', random_ternary_string draws v k = Returned (l, k'))
  ∨ random_ternary_string draws v k
    = Raised (ValueError "input length must be a positive ingeter").
Proof.
  unfold random_ternary_string.
  destruct v as [z|b|s|]; cbn [isinstance_int negb py_lt mbind result_bind py_index].
  - case_bool_decide; [by right | left; by eexists _, _].
  - case_bool_decide; [by right | left; by eexists _, _].
  - by right.
  - by right.
Qed.

Lemma spaghetti_initial_condition_fold (draws : nat → Z) (l : list Z) :
  ∀ (acc : list Z) (k : nat),
    foldl (λ (acc : list Z * nat) (_ : Z), (acc.1 ++ [draws acc.2], S acc.2)) (acc, k) l
    = (acc ++ (draws <$> seq k (length l)), (k + length l)%nat).
Proof.
  induction l as [|x l IH]; intros acc k.
  - simpl. by rewrite app_nil_r, Nat.add_0_r.
  - cbn [foldl fst snd length seq fmap list_fmap]. rewrite IH.
    rewrite <- app_assoc. f_equal. lia.
Qed.

(** X24: the loop that fills the first script's initial condition and
    [random_ternary_string] make the same list from the same draws, and
    use up the same number of draws. *)
Theorem spaghetti_initial_condition_matches (draws : nat → Z) (n : Z) (k : nat) :
  0 ≤ n →
  random_ternary_string draws (PyInt n) k
  = Returned (spaghetti_initial_condition draws n k).
Proof.
  intros Hn. unfold spaghetti_initial_condition.
  rewrite spaghetti_initial_condition_fold, length_seqZ.
  unfold random_ternary_string. cbn [isinstance_int negb py_lt].
  rewrite bool_decide_eq_false_2 by lia. reflexivity.
Qed.

Lemma spaghetti_initial_condition_matches_witness :
  random_ternary_string (λ j, Z.of_nat j `mod` 3) (PyInt 5) 2
  = Returned (spaghetti_initial_condition (λ j, Z.of_nat j `mod` 3) 5 2).
Proof.
  apply (spaghetti_initial_condition_matches (λ j, Z.of_nat j `mod` 3) 5 2). lia.
Defined.

(** X25: the last cell of the file, over its constants: with draws in
    {0, 1, 2}, a rule number in [0, 19682] and non-negative integers [L] and
    [T], making a random instance of [L] cells and evolving it [T] steps
    raises nothing and leaves a field of [T + 1] rows, each of [L] cells
    in {0, 1, 2}: the rectangular array the plot is given. *)
Theorem random_CA_script_field (draws : nat → Z) int_of_str r (L T : Z) (k : nat)
    (h : heap) :
  (∀ j, symbol (draws j)) → 0 ≤ r ≤ 19682 → 0 ≤ L → 0 ≤ T →
  ∃ CA h',
    random_CA_script draws int_of_str r (PyInt L) (PyInt T) k h = Returned (CA, h')
    ∧ Z.of_nat (length (spacetime CA)) = T + 1
    ∧ Forall (λ row, Z.of_nat (length row) = L ∧ Forall symbol row)
             (field_rows h' (spacetime CA)).
Proof.
  intros Hdraws Hr HL HT.
  destruct (random_ternary_string_valid draws L k Hdraws HL)
    as (l & Hrand & Hlen & Hsym & _).
  destruct (init_establishes_invariant r (length h) l (h ++ [l])) as (ca0 & Hinit & Hinv & _);
    [done | rewrite lookup_app_r by lia; by rewrite Nat.sub_diag | done |].
  destruct (evolve_preserves_invariant int_of_str (digit_table r) l 0 ca0 _ T
              (digit_table_total r) Hsym Hinv HT)
    as (CA & h' & Hrun & (_ & _ & _ & Hrows & _) & _).
  exists CA, h'. split.
  { unfold random_CA_script. rewrite Hrand. cbn [mbind result_bind alloc fst snd].
    rewrite Hinit. cbn [mbind result_bind fst snd]. by rewrite Hrun. }
  split.
  - rewrite <- (length_field_rows h'), Hrows. cbn [length].
    rewrite length_iterates. lia.
  - rewrite Hrows. constructor; [by split|].
    eapply Forall_impl; [apply iterates_rows; [apply digit_table_total | done]|].
    intros row [Hl Hs]. split; [lia | done].
Qed.

Lemma random_CA_script_field_witness :
  ∃ CA h',
    random_CA_script (λ j, Z.of_nat j `mod` 3) (λ _, None) 8711 (PyInt 4) (PyInt 2)
                     0 []
    = Returned (CA, h')
    ∧ Z.of_nat (length (spacetime CA)) = 2 + 1
    ∧ Forall (λ row, Z.of_nat (length row) = 4 ∧ Forall symbol row)
             (field_rows h' (spacetime CA)).
Proof.
  apply (random_CA_script_field (λ j, Z.of_nat j `mod` 3) (λ _, None) 8711 4 2 0 []);
    [|lia|lia|lia].
  intros j. apply symbol_cases.
  pose proof (Z.mod_pos_bound (Z.of_nat j) 3). lia.
Defined.

(** X26: the whole first script, over its constants: with draws in
    {0, 1, 2}, a rule number in [0, 19682] and non-negative [length] and
    [time], it raises nothing and its field has [time + 1] rows, each of
    [length] cells in {0, 1, 2}. *)
Theorem spaghetti_script_field (draws : nat → Z) r (L T : Z) (k : nat) (h : heap) :
  (∀ j, symbol (draws j)) → 0 ≤ r ≤ 19682 → 0 ≤ L → 0 ≤ T →
  ∃ F h',
    spaghetti_script draws r L T k h = Returned (F, h')
    ∧ Z.of_nat (length F) = T + 1
    ∧ Forall (λ row, Z.of_nat (length row) = L ∧ Forall symbol row) (field_rows h' F).
Proof.
  intros Hdraws Hr HL HT.
  destruct (random_ternary_string_valid draws L k Hdraws HL)
    as (l & Hrand & Hlen & Hsym & _).
  rewrite spaghetti_initial_condition_matches in Hrand by done.
  injection Hrand as Hic.
  assert ((h ++ [l]) !! length h = Some l) as Hl
    by (rewrite lookup_app_r by lia; by rewrite Nat.sub_diag).
  eexists _, _. split.
  { unfold spaghetti_script. rewrite Hic. cbn [alloc].
    rewrite (spaghetti_matches_function (λ _, None) r (length h) l T) by done.
    by apply three_state_spacetime_field_returns. }
  split.
  - cbn [length]. rewrite length_seq. lia.
  - rewrite field_rows_returned by done. constructor; [by split|].
    eapply Forall_impl; [apply iterates_rows; [apply digit_table_total | done]|].
    intros row [Hl' Hs]. split; [lia | done].
Qed.

Lemma spaghetti_script_field_witness :
  ∃ F h',
    spaghetti_script (λ j, Z.of_nat j `mod` 3) 8711 4 2 0 [] = Returned (F, h')
    ∧ Z.of_nat (length F) = 2 + 1
    ∧ Forall (λ row, Z.of_nat (length row) = 4 ∧ Forall symbol row) (field_rows h' F).
Proof.
  apply (spaghetti_script_field (λ j, Z.of_nat j `mod` 3) 8711 4 2 0 []);
    [|lia|lia|lia].
  intros j. apply symbol_cases.
  pose proof (Z.mod_pos_bound (Z.of_nat j) 3). lia.
Defined.

(** ** The first implementation checks nothing *)

(** X27: with a [time] of zero or less the first implementation returns
    the one-row field, for any rule number and any list: where the function
    raises on a negative [time_steps], the script's [range(time)] is just empty. *)
Theorem spaghetti_no_time_check r (ic : loc) (time : Z) (h : heap) :
  time ≤ 0 →
  spaghetti_spacetime_field r ic time h = Returned ([ic], h ++ [h !!! ic]).
Proof.
  intros Ht. unfold spaghetti_spacetime_field.
  destruct (spaghetti_lookup_table_any r) as (t & -> & _).
  cbn [mbind result_bind alloc].
  by replace (Z.to_nat time) with 0%nat by lia.
Qed.

Lemma spaghetti_no_time_check_witness :
  spaghetti_spacetime_field 20000 0%nat (-3) [[0; 7]]
  = Returned ([0%nat], [[0; 7]] ++ [[[0; 7]] !!! 0%nat]).
Proof. apply (spaghetti_no_time_check 20000 0%nat (-3) [[0; 7]]). lia. Defined.

Lemma digit_table_lookup_not_symbols r a b :
  ¬ (symbol a ∧ symbol b) → digit_table r !! (a, b) = None.
Proof.
  intros Hab. apply digit_table_lookup_None. intros Hin. apply Hab.
  unfold neighborhoods in Hin. rewrite !elem_of_cons, elem_of_nil in Hin.
  rewrite !symbol_cases.
  destruct Hin as [H|[H|[H|[H|[H|[H|[H|[H|[H|[]]]]]]]]]];
    injection H as -> ->; lia.
Qed.

Lemma new_configuration_loop_KeyError tbl (row : list Z) :
  table_total tbl → (∀ a b, ¬ (symbol a ∧ symbol b) → tbl !! (a, b) = None) →
  ∀ (indices : list nat) acc,
    Forall (λ i, (i < length row)%nat) indices →
    Exists (λ i, ¬ symbol (row !!! i)) indices →
    new_configuration_loop tbl row (Z.of_nat <$> indices) acc = Raised KeyError.
Proof.
  intros Htbl Hnone indices.
  induction indices as [|i indices IH]; intros acc Hlt Hex;
    [by apply Exists_nil in Hex|].
  apply Forall_cons in Hlt as [Hi Hlt].
  cbn [fmap list_fmap new_configuration_loop].
  rewrite (list_getitem_wrap row (Z.of_nat i - 1)) by lia.
  rewrite (list_getitem_nat row i) by done.
  cbn [mbind result_bind]. unfold dict_getitem.
  set (a := row !!! Z.to_nat ((Z.of_nat i - 1) `mod` Z.of_nat (length row))).
  destruct (decide (symbol a ∧ symbol (row !!! i))) as [[Ha Hb]|Hbad].
  - destruct (Htbl a (row !!! i) Ha Hb) as (v & -> & _). cbn [mbind result_bind].
    apply IH; [done|]. apply Exists_cons in Hex as [Hex|Hex]; [contradiction | done].
  - by rewrite Hnone.
Qed.

(** X28: nor does it check the cells: on a rule number in [0, 19682], a
    list with a cell outside {0, 1, 2} and a [time] of at least 1, the first
    implementation raises [KeyError] from its table, where the function
    raises its initial-condition [ValueError]. *)
Theorem spaghetti_invalid_symbol_KeyError r (ic : loc) (config : list Z) (x time : Z)
    (h : heap) :
  0 ≤ r ≤ 19682 → h !! ic = Some config → x ∈ config → ¬ symbol x → 1 ≤ time →
  spaghetti_spacetime_field r ic time h = Raised KeyError.
Proof.
  intros Hr Hic Hin Hx Ht. unfold spaghetti_spacetime_field.
  destruct (decoders_agree_in_range r Hr) as (tS & tF & HS & HF & Hagree).
  rewrite three_state_lookup_table_digits in HF by done. injection HF as <-.
  rewrite HS. cbn [mbind result_bind alloc].
  destruct (Z.to_nat time) as [|steps] eqn:Hsteps; [lia|].
  cbn [spaghetti_time_loop].
  assert ((h ++ [h !!! ic]) !!! length h = config) as ->.
  { apply list_lookup_total_correct. rewrite lookup_app_r by lia.
    rewrite Nat.sub_diag. simpl. f_equal. by apply list_lookup_total_correct. }
  rewrite (spaghetti_new_configuration_loop_agree tS (digit_table r) Hagree).
  rewrite seqZ_of_nat.
  rewrite (new_configuration_loop_KeyError (digit_table r) config
             (digit_table_total r) (digit_table_lookup_not_symbols r)); [done | |].
  - apply Forall_forall. intros i Hi. apply elem_of_seq in Hi. lia.
  - apply list_elem_of_lookup in Hin as [i Hi].
    apply Exists_exists. exists i. split.
    + apply elem_of_seq. apply lookup_lt_Some in Hi. lia.
    + by rewrite (list_lookup_total_correct _ _ _ Hi).
Qed.

Lemma spaghetti_invalid_symbol_KeyError_witness :
  spaghetti_spacetime_field 8711 0%nat 1 [[0; 1; 3]] = Raised KeyError.
Proof.
  apply (spaghetti_invalid_symbol_KeyError 8711 0%nat [0; 1; 3] 3 1);
    [lia | reflexivity | | rewrite symbol_cases; lia | lia].
  apply (list_elem_of_lookup_2 _ 2%nat). reflexivity.
Defined.
